(** * Verification of the duso benchmark scripts (bench/*.py)

    A shallow embedding of the six Python benchmark scripts and the
    properties their specification states about them.

    Conventions of the embedding.
    - Python [int] is [Z]; [%] is [Z.modulo] (both floor, sign of the divisor).
    - [range(a, b)] is the list [range a b]; a [for] loop over it that only
      updates local variables is a [fold_left] over that list whose
      accumulator holds those variables.
    - [time.time()] is an oracle: the k-th call of a run returns [clock k],
      a Python [float].  Python's [float] is IEEE 754 binary64, here the
      primitive [float] with its operations [*], [-] and [/]; [f"{x:.1f}"]
      is the correctly rounded decimal of the exact value of [x].
    - Standard output is the string of characters written so far.
    - Exceptions are values; a computation either returns or raises.
    - The network, the CPU count, the order in which futures complete and the
      traced memory are oracles of the environment as well; the pools of
      [multiprocessing] and [concurrent.futures] are modelled by what their
      documentation promises. *)

From Stdlib Require Import ZArith QArith Qabs List String Ascii Bool Lia Lqa.
From Stdlib Require Import Floats Qpower.
From Stdlib Require Import Permutation Sorted DecimalString.
Import ListNotations.

Local Open Scope Z_scope.

(** ** Python built-ins *)

(** [range(lo, hi)]: the integers [lo, lo+1, ..., hi-1] (empty when [hi <= lo]). *)
Definition range (lo hi : Z) : list Z :=
  map (fun k => lo + Z.of_nat k) (seq 0 (Z.to_nat (hi - lo))).

(** [len(l)] as a Python int. *)
Definition len {A : Type} (l : list A) : Z := Z.of_nat (List.length l).

(** [str(n)] for a Python int. *)
Definition str_of_int (n : Z) : string :=
  match n with
  | Zneg p => String "-" (NilZero.string_of_uint (Pos.to_uint p))
  | _ => NilZero.string_of_uint (N.to_uint (Z.to_N n))
  end.

(** The nearest integer to a rational, ties to the even neighbour: the
    rounding the [f] format applies to the exact value of its argument. *)
Definition round_half_even (q : Q) : Z :=
  let d := Zpos (Qden q) in
  let fl := Qnum q / d in
  match 2 * (Qnum q mod d) ?= d with
  | Lt => fl
  | Gt => fl + 1
  | Eq => if Z.even fl then fl else fl + 1
  end.

Fixpoint zeros (n : nat) : string :=
  match n with O => EmptyString | S n' => String "0" (zeros n') end.

(** [format(x, ".<digits>f")]: sign, integer part, and [digits] decimals
    (zero padded) after the point.  A negative value keeps its sign even
    when it rounds to zero, as Python's float formatting does. *)
Definition format_f (digits : nat) (x : Q) : string :=
  let scale := 10 ^ Z.of_nat digits in
  let m := round_half_even (Qabs x * inject_Z scale)%Q in
  let frac := str_of_int (m mod scale) in
  ((if Qlt_le_dec x 0 then "-" else "") ++
   str_of_int (m / scale) ++ "." ++
   zeros (digits - String.length frac) ++ frac)%string.

(** ** Binary64 numbers

    Python's [float] is the kernel's [float]: IEEE 754 binary64 with
    round-to-nearest-even, the arithmetic the scripts run on. *)

(** The exact value of a finite binary64 number [(-1)^s * m * 2^e]. *)
Definition SF2Q (f : spec_float) : Q :=
  match f with
  | S754_finite s m e => (inject_Z (if s then Zneg m else Zpos m) * Qpower 2 e)%Q
  | _ => 0%Q
  end.

(** [float(n)] for a Python int: the nearest binary64 number.  A byte count
    [n / 1024] is [float_of_Z n / 1024]: dividing by a power of two is
    exact, so rounding [n] first gives the same quotient. *)
Definition float_of_Z (n : Z) : float :=
  SF2Prim (binary_normalize prec emax n 0 false).

(** [format(x, ".<digits>f")] for a float: the decimal rounding of its exact
    value; zero keeps its sign; the values that are no numbers have names. *)
Definition format_float (digits : nat) (x : float) : string :=
  match Prim2SF x with
  | S754_nan => "nan"
  | S754_infinity s => if s then "-inf" else "inf"
  | S754_zero s => ((if s then "-" else "") ++ format_f digits 0)%string
  | S754_finite s m e => format_f digits (SF2Q (S754_finite s m e))
  end.

(** ** Effects: exceptions, the clock, standard output *)

(** A raised exception: its class name, whether that class derives from
    [Exception] (what [except Exception] tests), and [str(e)]. *)
Record exn : Type := mk_exn {
  exn_class : string;
  is_Exception : bool;
  exn_str : string
}.

(** Outcome of one [requests.get]: a response with its status code, or a
    raised exception (timeout, connection error, ...). *)
Inductive http_outcome : Type :=
| Responded (status : Z)
| Failed (e : exn).

(** What the environment decides during one run. *)
Record env : Type := mk_env {
  (** the value returned by the k-th call of [time.time()], in seconds *)
  clock : nat -> float;
  (** the outcome of the GET issued by worker [worker_id] in attempt [i] *)
  http : Z -> Z -> http_outcome;
  (** the number of CPUs a pool takes as its default size ([os.cpu_count()],
      [os.process_cpu_count()] from Python 3.13), or [None] *)
  cpu_count : option positive;
  (** completion order of submitted futures: the k-th future to complete is
      number [completion k mod p] among the [p] still pending ones *)
  completion : nat -> nat;
  (** the pair returned by the k-th call of [tracemalloc.get_traced_memory()] *)
  traced_memory : nat -> Z * Z
}.

(** The state a run threads through its statements. *)
Record world : Type := mk_world {
  ticks : nat;          (** calls of [time.time()] made so far *)
  stdout : string;      (** characters written to standard output so far *)
  mem_reads : nat;      (** calls of [get_traced_memory()] made so far *)
  invocations : nat     (** ghost: calls [fn()] made by the timing harness *)
}.

(** The result of a worker body: a value or a raised exception. *)
Inductive res (A : Type) : Type :=
| Ok (a : A)
| Err (e : exn).
Arguments Ok {A} a.
Arguments Err {A} e.

(** A computation run by a worker (in a pool process or thread): it sees
    the environment but neither the clock nor standard output. *)
Definition W (A : Type) : Type := env -> res A.

(** The outcome of a computation of the main thread, with the world it leaves. *)
Inductive outcome (A : Type) : Type :=
| Normal (a : A) (w : world)
| Raised (e : exn) (w : world).
Arguments Normal {A} a w.
Arguments Raised {A} e w.

(** A computation of the main thread. *)
Definition M (A : Type) : Type := env -> world -> outcome A.

Class Monad (m : Type -> Type) : Type := {
  ret : forall {A}, A -> m A;
  bind : forall {A B}, m A -> (A -> m B) -> m B
}.

#[export] Instance W_Monad : Monad W := {
  ret := fun A a _ => Ok a;
  bind := fun A B c k E => match c E with Ok a => k a E | Err e => Err e end
}.

#[export] Instance M_Monad : Monad M := {
  ret := fun A a _ w => Normal a w;
  bind := fun A B c k E w =>
    match c E w with Normal a w' => k a E w' | Raised e w' => Raised e w' end
}.

Declare Scope monad_scope.
Delimit Scope monad_scope with monad.
Notation "x <- c ;; k" := (bind c (fun x => k))
  (at level 61, c at next level, right associativity) : monad_scope.
Notation "c ;; k" := (bind c (fun _ => k))
  (at level 61, right associativity) : monad_scope.
Local Open Scope monad_scope.

(** [raise e] *)
Definition raise {A : Type} (e : exn) : M A := fun _ w => Raised e w.

(** Delivering a worker's result in the main thread: the value, or the
    worker's exception raised again. *)
Definition deliver {A : Type} (r : res A) : M A :=
  match r with Ok a => ret a | Err e => raise e end.

(** [try: body / except Exception as e: handler(e)]: only instances of
    [Exception] are caught; anything else keeps propagating. *)
Definition try_except {A : Type} (body : W A) (handler : exn -> W A) : W A :=
  fun E =>
    match body E with
    | Ok a => Ok a
    | Err e => if is_Exception e then handler e E else Err e
    end.

(** [for x in l: s = body(s, x)] *)
Fixpoint for_each {m : Type -> Type} `{Monad m} {S X : Type}
    (l : list X) (s : S) (body : S -> X -> m S) : m S :=
  match l with
  | [] => ret s
  | x :: l' => s' <- body s x ;; for_each l' s' body
  end.

(** The list comprehension [[f(x) for x in l]], [f] evaluated left to right. *)
Fixpoint comprehension {m : Type -> Type} `{Monad m} {X Y : Type}
    (f : X -> m Y) (l : list X) : m (list Y) :=
  match l with
  | [] => ret []
  | x :: l' => y <- f x ;; ys <- comprehension f l' ;; ret (y :: ys)
  end.

(** The changes a statement makes to the world. *)
Definition tick (w : world) : world :=
  mk_world (S (ticks w)) (stdout w) (mem_reads w) (invocations w).

Definition newline : string := String (ascii_of_nat 10) EmptyString.

Definition emit (s : string) (w : world) : world :=
  mk_world (ticks w) (stdout w ++ s ++ newline)%string (mem_reads w)
    (invocations w).

Definition mem_read (w : world) : world :=
  mk_world (ticks w) (stdout w) (S (mem_reads w)) (invocations w).

Definition enter (w : world) : world :=
  mk_world (ticks w) (stdout w) (mem_reads w) (S (invocations w)).

(** [time.time()] *)
Definition time_time : M float :=
  fun E w => Normal (clock E (ticks w)) (tick w).

(** [print(s)] *)
Definition print (s : string) : M unit :=
  fun _ w => Normal tt (emit s w).

(** [tracemalloc.get_traced_memory()] *)
Definition get_traced_memory : M (Z * Z) :=
  fun E w => Normal (traced_memory E (mem_reads w)) (mem_read w).

(** The call [fn()] in the harness: counted, then run. *)
Definition invoke {A : Type} (fn : M A) : M A :=
  fun E w => fn E (enter w).

(** A Python function without arguments that computes [v] and has no
    effect, as a computation to call. *)
Definition workload {A : Type} (v : A) : M A := ret v.

(** ** Library models *)

(** [requests]: a response object and [requests.get].  The first two
    arguments name the call (which worker, which attempt) for the oracle;
    the URL and the timeout are those of the source and do not change what
    the model returns: the environment decides. *)
Record response : Type := mk_response { status_code : Z }.

Definition requests_get (worker_id attempt : Z) (url : string) (timeout : Z)
  : W response :=
  fun E =>
    match http E worker_id attempt with
    | Responded s => Ok (mk_response s)
    | Failed e => Err e
    end.

Definition ValueError (msg : string) : exn := mk_exn "ValueError" true msg.

(** [multiprocessing.Pool]: a pool of worker processes. *)
Module multiprocessing.

(** A pool and the number of worker processes it owns. *)
Record pool : Type := mk_pool { processes : Z }.

(** [Pool(processes=p)]: with [None] the pool has as many processes as the
    interpreter counts CPUs (the oracle [cpu_count]), one if that is unknown;
    fewer than one is a [ValueError]. *)
Definition Pool (p : option Z) : M pool :=
  fun E w =>
    let n := match p with
             | Some n => n
             | None => match cpu_count E with
                       | Some c => Zpos c
                       | None => 1
                       end
             end in
    if n <? 1
    then Raised (ValueError "Number of processes must be at least 1") w
    else Normal (mk_pool n) w.

(** [pool.starmap(func, iterable)]: blocks until every call is done and
    returns the results in the order of [iterable]; an exception of a call
    is raised again in the caller. *)
Definition starmap {A B : Type} (p : pool) (func : A -> W B)
    (iterable : list A) : M (list B) :=
  fun E => comprehension (fun a => deliver (func a E)) iterable E.

(** The handle [apply_async] returns at once: it names the submitted call,
    whose result is not awaited; a call still pending when the pool is torn
    down never runs. *)
Record AsyncResult (B : Type) : Type := mk_async { call : W B }.
Arguments mk_async {B} call.
Arguments call {B} a.

(** [pool.apply_async(func, args)] *)
Definition apply_async {A B : Type} (p : pool) (func : A -> W B) (args : A)
  : M (AsyncResult B) :=
  fun E w => Normal (mk_async (func args)) w.

End multiprocessing.

(** [concurrent.futures]: thread pool, futures, completion order. *)
Module futures.

Record executor : Type := mk_executor { max_workers : Z }.

(** [ThreadPoolExecutor(max_workers=n)] *)
Definition ThreadPoolExecutor (n : Z) : M executor :=
  if n <=? 0
  then raise (ValueError "max_workers must be greater than 0")
  else ret (mk_executor n).

(** A future and the result its call ends with. *)
Record Future (B : Type) : Type := mk_future { eventually : res B }.
Arguments mk_future {B} eventually.
Arguments eventually {B} f.

(** [executor.submit(fn, arg)] *)
Definition submit {A B : Type} (ex : executor) (fn : A -> W B) (arg : A)
  : M (Future B) :=
  fun E w => Normal (mk_future (fn arg E)) w.

(** [future.result()] *)
Definition result {B : Type} (f : Future B) : M B := deliver (eventually f).

Fixpoint remove_nth {A : Type} (j : nat) (l : list A) : list A :=
  match l, j with
  | [], _ => []
  | _ :: l', O => l'
  | x :: l', S j' => x :: remove_nth j' l'
  end.

(** [n] more completions, the next one being the [k]-th of the run. *)
Fixpoint complete {A : Type} (n : nat) (order : nat -> nat) (k : nat)
    (pending : list A) : list A :=
  match n, pending with
  | S n', x :: _ =>
      let j := (order k mod List.length pending)%nat in
      nth j pending x :: complete n' order (S k) (remove_nth j pending)
  | _, _ => []
  end.

(** [as_completed(fs)]: the futures of [fs], each once, in the order in
    which they complete. *)
Definition as_completed {B : Type} (fs : list (Future B)) : M (list (Future B)) :=
  fun E w => Normal (complete (List.length fs) (completion E) 0 fs) w.

End futures.

Local Open Scope string_scope.
Local Open Scope Z_scope.

(** ** bench/benchmark.py *)

Module benchmark.

Definition benchmark {A : Type} (name : string) (fn : M A) : M A :=
  t <- time_time ;;
  let start := (t * 1000)%float in
  result <- invoke fn ;;
  t <- time_time ;;
  let elapsed := (t * 1000 - start)%float in
  print (name ++ ": " ++ format_float 1 elapsed ++ "ms") ;;
  ret result.

(** Benchmark 1: arithmetic operations. *)
Definition test_arithmetic : Z :=
  fold_left (fun sum i => sum + i mod 10) (range 1 1000001) 0.

(** Benchmark 2: array push. *)
Definition test_array_push : Z :=
  let arr := fold_left (fun arr i => arr ++ [i])%list (range 1 100001) [] in
  len arr.

(** Benchmark 3: nested loops; the inner loop runs inside the outer
    loop's body, on the same accumulator. *)
Definition test_nested_loops : Z :=
  fold_left
    (fun sum i => fold_left (fun sum j => sum + i * j) (range 1 101) sum)
    (range 1 101) 0.

(** Benchmark 4: string operations. *)
Definition test_string_concat : Z :=
  let str := fold_left (fun str _ => str ++ "x") (range 1 10001) "" in
  Z.of_nat (String.length str).

(** Benchmark 5: naive Fibonacci.  The recursion is on [n] itself; the
    fuel only makes it structural and [fib] supplies enough of it. *)
Fixpoint fib_fuel (fuel : nat) (n : Z) : Z :=
  match fuel with
  | O => n
  | S fuel' =>
      if n <=? 1 then n else fib_fuel fuel' (n - 1) + fib_fuel fuel' (n - 2)
  end.

Definition fib (n : Z) : Z := fib_fuel (Z.to_nat n) n.

Definition test_recursion : Z := fib 25.

(** Benchmark 6: array filtering and mapping. *)
Definition test_functional : Z :=
  let nums := range 1 10001 in
  let filtered := filter (fun x => x mod 2 =? 0) nums in
  let mapped := map (fun x => x * 2) filtered in
  len mapped.

(** The statements at module level: run all benchmarks. *)
Definition script : M unit :=
  print "=== Python Benchmarks ===" ;;
  benchmark "Arithmetic (1M ops)" (workload test_arithmetic) ;;
  benchmark "Array push (100k)" (workload test_array_push) ;;
  benchmark "Nested loops (100x100)" (workload test_nested_loops) ;;
  benchmark "String concat (10k)" (workload test_string_concat) ;;
  benchmark "Recursion fib(25)" (workload test_recursion) ;;
  benchmark "Functional chain" (workload test_functional) ;;
  ret tt.

End benchmark.

(** ** bench/spawn_benchmark.py *)

Module spawn_benchmark.
Import multiprocessing.

Record worker_result : Type := mk_result { worker_id : Z; sum : Z }.

(** Worker function that counts to 1M. *)
Definition worker (worker_id : Z) : W worker_result :=
  let sum := fold_left (fun sum i => sum + i mod 10) (range 1 1000001) 0 in
  ret (mk_result worker_id sum).

(** The local variables of [main] when it returns.  ([main] returns [None];
    the model returns its locals so that they can be spoken about.)  The
    argument tuples [(i,)] of [starmap] are their single element. *)
Record locals : Type := mk_locals {
  the_pool : pool;
  results : list worker_result;
  spawn_time : float
}.

Definition main : M locals :=
  print "=== Python Spawn Benchmark ===" ;;
  t <- time_time ;;
  let start := (t * 1000)%float in
  pool <- Pool None ;;
  results <- starmap pool worker (map (fun i => i) (range 1 1001)) ;;
  t <- time_time ;;
  let spawn_time := (t * 1000 - start)%float in
  print ("Spawn and complete 1000 workers: " ++ format_float 1 spawn_time ++ "ms") ;;
  print ("Completed " ++ str_of_int (len results) ++ " workers") ;;
  ret (mk_locals pool results spawn_time).

End spawn_benchmark.

(** ** bench/spawn_benchmark_spawn_only.py *)

Module spawn_benchmark_spawn_only.
Import multiprocessing.

Record worker_result : Type := mk_result { worker_id : Z; sum : Z }.

(** Worker function that counts to 1M. *)
Definition worker (worker_id : Z) : W worker_result :=
  let sum := fold_left (fun sum i => sum + i mod 10) (range 1 1000001) 0 in
  ret (mk_result worker_id sum).

Record locals : Type := mk_locals {
  the_pool : pool;
  async_results : list (AsyncResult worker_result);
  spawn_time : float
}.

Definition main : M locals :=
  print "=== Python Spawn Benchmark (spawn time only) ===" ;;
  t <- time_time ;;
  let start := (t * 1000)%float in
  pool <- Pool None ;;
  async_results <- for_each (range 1 1001) [] (fun async_results i =>
    r <- apply_async pool worker i ;;
    ret (async_results ++ [r])%list) ;;
  t <- time_time ;;
  let spawn_time := (t * 1000 - start)%float in
  print ("Submit 1000 worker tasks: " ++ format_float 1 spawn_time ++ "ms") ;;
  print ("Submitted " ++ str_of_int (len async_results) ++ " tasks") ;;
  ret (mk_locals pool async_results spawn_time).

End spawn_benchmark_spawn_only.

(** ** The three HTTP benchmarks *)

(** An element of a worker's [results] list:
    [{"attempt": i, "status": code}] or [{"attempt": i, "error": str(e)}]. *)
Inductive entry : Type :=
| Success (attempt : Z) (status : Z)
| Error (attempt : Z) (error : string).

(** The dict a worker returns: [{"worker_id": ..., "requests": ...}]. *)
Record fetch_result : Type := mk_fetch { worker_id : Z; requests : Z }.

(** ** bench/spawn_benchmark_fetch.py *)

Module spawn_benchmark_fetch.
Import futures.

(** The loop of [worker]: the value of [results] when it ends. *)
Definition attempts (worker_id : Z) : W (list entry) :=
  for_each (range 1 6) [] (fun results i =>
    try_except
      (response <- requests_get worker_id i "https://httpbin.org/delay/1" 15 ;;
       if status_code response =? 200
       then ret (results ++ [Success i (status_code response)])%list
       else ret results)
      (fun e => ret (results ++ [Error i (exn_str e)])%list)).

(** Worker that makes 5 HTTP requests. *)
Definition worker (worker_id : Z) : W fetch_result :=
  results <- attempts worker_id ;;
  ret (mk_fetch worker_id (len results)).

Record locals : Type := mk_locals {
  executor : futures.executor;
  results : list fetch_result;
  spawn_time : float;
  wait_time : float;
  total_time : float
}.

Definition main : M locals :=
  print "=== Python I/O-Bound Benchmark ===" ;;
  print "Each worker makes 5 HTTP requests to httpbin.org/delay/1" ;;
  print "" ;;
  t <- time_time ;;
  let start := (t * 1000)%float in
  t <- time_time ;;
  let spawn_start := (t * 1000)%float in
  executor <- ThreadPoolExecutor 1000 ;;
  futures <- comprehension (fun i => submit executor worker i) (range 1 1001) ;;
  t <- time_time ;;
  let spawn_time := (t * 1000 - spawn_start)%float in
  t <- time_time ;;
  let wait_start := (t * 1000)%float in
  completed <- as_completed futures ;;
  results <- comprehension (fun f => result f) completed ;;
  t <- time_time ;;
  let wait_time := (t * 1000 - wait_start)%float in
  t <- time_time ;;
  let total_time := (t * 1000 - start)%float in
  print ("Spawn 1000 workers: " ++ format_float 1 spawn_time ++ "ms") ;;
  print ("Wait for completion: " ++ format_float 1 wait_time ++ "ms") ;;
  print ("Total time: " ++ format_float 1 total_time ++ "ms") ;;
  print ("Average per worker: " ++ format_float 3 (wait_time / 1000)%float ++ "ms") ;;
  ret (mk_locals executor results spawn_time wait_time total_time).

End spawn_benchmark_fetch.

(** ** bench/spawn_benchmark_fetch_lite.py *)

Module spawn_benchmark_fetch_lite.
Import futures.

Definition attempts (worker_id : Z) : W (list entry) :=
  for_each (range 1 6) [] (fun results i =>
    try_except
      (response <- requests_get worker_id i "https://httpbin.org/delay/1" 15 ;;
       if status_code response =? 200
       then ret (results ++ [Success i (status_code response)])%list
       else ret results)
      (fun e => ret (results ++ [Error i (exn_str e)])%list)).

(** Worker that makes 5 HTTP requests. *)
Definition worker (worker_id : Z) : W fetch_result :=
  results <- attempts worker_id ;;
  ret (mk_fetch worker_id (len results)).

Record locals : Type := mk_locals {
  executor : futures.executor;
  results : list fetch_result;
  spawn_time : float;
  wait_time : float;
  total_time : float
}.

Definition main : M locals :=
  print "=== Python I/O-Bound Benchmark (100 workers) ===" ;;
  t <- time_time ;;
  let start := (t * 1000)%float in
  executor <- ThreadPoolExecutor 100 ;;
  t <- time_time ;;
  let spawn_start := (t * 1000)%float in
  futures <- comprehension (fun i => submit executor worker i) (range 1 101) ;;
  t <- time_time ;;
  let spawn_time := (t * 1000 - spawn_start)%float in
  t <- time_time ;;
  let wait_start := (t * 1000)%float in
  completed <- as_completed futures ;;
  results <- comprehension (fun f => result f) completed ;;
  t <- time_time ;;
  let wait_time := (t * 1000 - wait_start)%float in
  t <- time_time ;;
  let total_time := (t * 1000 - start)%float in
  print ("Spawn 100 workers: " ++ format_float 1 spawn_time ++ "ms") ;;
  print ("Wait for completion: " ++ format_float 1 wait_time ++ "ms") ;;
  print ("Total time: " ++ format_float 1 total_time ++ "ms") ;;
  ret (mk_locals executor results spawn_time wait_time total_time).

End spawn_benchmark_fetch_lite.

(** ** bench/spawn_benchmark_fetch_lite_memory.py *)

Module spawn_benchmark_fetch_lite_memory.
Import futures.

Definition attempts (worker_id : Z) : W (list entry) :=
  for_each (range 1 6) [] (fun results i =>
    try_except
      (response <- requests_get worker_id i "https://httpbin.org/delay/1" 15 ;;
       if status_code response =? 200
       then ret (results ++ [Success i (status_code response)])%list
       else ret results)
      (fun e => ret (results ++ [Error i (exn_str e)])%list)).

(** Worker that makes 5 HTTP requests. *)
Definition worker (worker_id : Z) : W fetch_result :=
  results <- attempts worker_id ;;
  ret (mk_fetch worker_id (len results)).

(** [retrieved] is not a variable of the source: it lists the values the
    calls [future.result()] of the waiting loop returned, which the source
    drops. *)
Record locals : Type := mk_locals {
  executor : futures.executor;
  retrieved : list fetch_result;
  peak_memory : Z;
  spawn_time : float;
  wait_time : float;
  total_time : float
}.

Definition main : M locals :=
  print "=== Python I/O-Bound Benchmark (100 workers) ===" ;;
  (* tracemalloc.start() *)
  t <- time_time ;;
  let start := (t * 1000)%float in
  let peak_memory := 0 in
  executor <- ThreadPoolExecutor 100 ;;
  t <- time_time ;;
  let spawn_start := (t * 1000)%float in
  futures <- comprehension (fun i => submit executor worker i) (range 1 101) ;;
  t <- time_time ;;
  let spawn_time := (t * 1000 - spawn_start)%float in
  t <- time_time ;;
  let wait_start := (t * 1000)%float in
  completed <- as_completed futures ;;
  st <- for_each completed (peak_memory, []) (fun st future =>
    let '(peak_memory, retrieved) := st in
    cp <- get_traced_memory ;;
    let '(current, peak) := cp in
    let peak_memory := Z.max peak_memory peak in
    r <- result future ;;
    ret (peak_memory, (retrieved ++ [r])%list)) ;;
  let '(peak_memory, retrieved) := st in
  t <- time_time ;;
  let wait_time := (t * 1000 - wait_start)%float in
  t <- time_time ;;
  let total_time := (t * 1000 - start)%float in
  cp <- get_traced_memory ;;
  let '(current, peak) := cp in
  let peak_memory := Z.max peak_memory peak in
  (* tracemalloc.stop() *)
  print ("Spawn 100 workers: " ++ format_float 1 spawn_time ++ "ms") ;;
  print ("Wait for completion: " ++ format_float 1 wait_time ++ "ms") ;;
  print ("Total time: " ++ format_float 1 total_time ++ "ms") ;;
  print ("Peak memory: "
         ++ format_float 1 (float_of_Z peak_memory / 1024 / 1024)%float ++ " MB") ;;
  ret (mk_locals executor retrieved peak_memory spawn_time wait_time total_time).

End spawn_benchmark_fetch_lite_memory.

(** ** Notions used to state the properties *)

(** The sum of the integers [lo, ..., hi], both included. *)
Definition sigma (lo hi : Z) : Z := fold_right Z.add 0 (range lo (hi + 1)).

(** The counting loop shared by [test_arithmetic] and the CPU-bound workers. *)
Definition count_loop (hi : Z) (acc : Z) : Z :=
  fold_left (fun sum i => sum + i mod 10) (range 1 hi) acc.

(** The harness's local [elapsed] when its first sample was taken in world
    [w] and the workload left the world [w2]: the second sample is taken
    there. *)
Definition harness_elapsed (E : env) (w w2 : world) : float :=
  (clock E (ticks w2) * 1000 - clock E (ticks w) * 1000)%float.

(** The line the harness prints. *)
Definition report (name : string) (elapsed : float) : string :=
  name ++ ": " ++ format_float 1 elapsed ++ "ms".

(** The size of a pool created with [processes=None]. *)
Definition default_processes (E : env) : Z :=
  match cpu_count E with Some c => Zpos c | None => 1 end.

(** What one attempt leaves in a worker's [results]. *)
Definition entry_of (i : Z) (o : http_outcome) : list entry :=
  match o with
  | Responded s => if s =? 200 then [Success i s] else []
  | Failed e => [Error i (exn_str e)]
  end.

(** The ["attempt"] field of an entry. *)
Definition attempt_of (x : entry) : Z :=
  match x with Success i _ => i | Error i _ => i end.

(** The [results] list of worker [id] after the attempts [l]. *)
Definition recorded (E : env) (id : Z) (l : list Z) : list entry :=
  flat_map (fun i => entry_of i (http E id i)) l.

(** An attempt whose GET returns a response with a status other than 200. *)
Definition rejected (E : env) (id i : Z) : Prop :=
  exists s, http E id i = Responded s /\ s <> 200.

(** An attempt whose GET raises something [except Exception] lets through. *)
Definition fatal (E : env) (id i : Z) (e : exn) : Prop :=
  http E id i = Failed e /\ is_Exception e = false.

(** No request of the run raises anything but an [Exception]. *)
Definition recoverable (E : env) : Prop :=
  forall id i e, http E id i = Failed e -> is_Exception e = true.

(** The values of a list of results, or the first exception among them. *)
Fixpoint collect {A : Type} (l : list (res A)) : res (list A) :=
  match l with
  | [] => Ok []
  | Ok a :: l' =>
      match collect l' with Ok vs => Ok (a :: vs) | Err e => Err e end
  | Err e :: _ => Err e
  end.

(** The first exception among the attempts [l] of worker [id] that
    [except Exception] does not catch, if there is one. *)
Fixpoint first_fatal (E : env) (id : Z) (l : list Z) : option exn :=
  match l with
  | [] => None
  | i :: l' =>
      match http E id i with
      | Failed e => if is_Exception e then first_fatal E id l' else Some e
      | Responded _ => first_fatal E id l'
      end
  end.

(** The order in which the futures submitted for [range lo hi] complete:
    the arguments of their calls, in completion order. *)
Definition completion_order (E : env) (lo hi : Z) : list Z :=
  futures.complete (List.length (range lo hi)) (completion E) 0 (range lo hi).

(** What an HTTP worker returns when none of its GETs is fatal. *)
Definition fetched (E : env) (id : Z) : fetch_result :=
  mk_fetch id (len (recorded E id (range 1 6))).

(** The difference of two clock samples, in milliseconds, as the scripts
    compute it: [later] and [earlier] number the calls of [time.time()]. *)
Definition interval (E : env) (earlier later : nat) : float :=
  (clock E later * 1000 - clock E earlier * 1000)%float.

(** The value of [peak_memory] after [n] more readings of the traced
    memory, the next reading being number [m]. *)
Fixpoint peaks (E : env) (m n : nat) (p : Z) : Z :=
  match n with
  | O => p
  | S n' => peaks E (S m) n' (Z.max p (snd (traced_memory E m)))
  end.







(** [k] tenths is the multiple of 0.1 nearest to [v], the even one when two
    are as near. *)
Definition nearest_tenths (v : Q) (k : Z) : Prop :=
  0 <= k
  /\ (Qabs (inject_Z k - v * inject_Z 10) <= 1 # 2)%Q
  /\ ((Qabs (inject_Z k - v * inject_Z 10) == 1 # 2)%Q -> Z.even k = true).

(** The digits of a natural number, as the Standard Library writes them. *)
Definition digits_of (n : Z) : string :=
  NilZero.string_of_uint (N.to_uint (Z.to_N n)).

(** [text] is what [format(x, ".1f")] has to be: a minus sign for a negative
    number (zero included), the digits of the tenths nearest to its exact
    value, with one digit after the point. *)
Definition one_decimal (x : float) (text : string) : Prop :=
  match Prim2SF x with
  | S754_nan => text = "nan"
  | S754_infinity s => text = if s then "-inf" else "inf"
  | S754_zero s => text = if s then "-0.0" else "0.0"
  | S754_finite s m e =>
      exists k,
        nearest_tenths (Qabs (SF2Q (S754_finite s m e))) k
        /\ text = (if s then "-" else "") ++ digits_of (k / 10) ++ "."
                  ++ String (ascii_of_nat (48 + Z.to_nat (k mod 10))) EmptyString
  end.

(** Sample runs.  [steady_env]: the clock advances one second per call,
    every request is answered with 200, the machine has 8 CPUs, futures
    complete last submitted first. *)
Definition w0 : world := mk_world 0 "" 0 0.

Definition steady_env : env :=
  mk_env (fun k => float_of_Z (Z.of_nat k))
         (fun _ _ => Responded 200)
         (Some 8%positive)
         (fun k => k)
         (fun k => (0, 1024 * Z.of_nat k)).

(** [backward_env]: as [steady_env], but the system clock is set back by a
    second between the first and the second sample and then stands still. *)
Definition backward_env : env :=
  mk_env (fun k => match k with O => 2%float | _ => 1%float end)
         (fun _ _ => Responded 200)
         (Some 8%positive)
         (fun k => k)
         (fun k => (0, 1024 * Z.of_nat k)).

Definition Timeout : exn :=
  mk_exn "ReadTimeout" true "Read timed out. (read timeout=15)".

Definition KeyboardInterrupt : exn := mk_exn "KeyboardInterrupt" false "".

(** [flaky_env]: the third attempt of every worker is answered with 500 and
    the fourth times out. *)
Definition flaky_env : env :=
  mk_env (fun k => float_of_Z (Z.of_nat k))
         (fun _ i => if i =? 3 then Responded 500
                     else if i =? 4 then Failed Timeout
                     else Responded 200)
         (Some 8%positive)
         (fun k => k)
         (fun k => (0, 1024 * Z.of_nat k)).

(** The text of the given lines on standard output, each ended by a newline. *)
Fixpoint lines (l : list string) : string :=
  match l with
  | [] => ""
  | s :: l' => s ++ newline ++ lines l'
  end.

(** How many of the attempts [l] of worker [id] are answered with a status
    other than 200. *)
Definition rejections (E : env) (id : Z) (l : list Z) : Z :=
  len (filter (fun i => match http E id i with
                        | Responded s => negb (s =? 200)
                        | Failed _ => false
                        end) l).

(** [n] copies of the character [c]. *)
Fixpoint replicate (n : nat) (c : ascii) : string :=
  match n with O => EmptyString | S n' => String c (replicate n' c) end.

(** [fatal_env]: as [steady_env], but the second GET of worker 7 is
    interrupted from the keyboard. *)
Definition fatal_env : env :=
  mk_env (fun k => float_of_Z (Z.of_nat k))
         (fun id i => if (id =? 7) && (i =? 2) then Failed KeyboardInterrupt
                      else Responded 200)
         (Some 8%positive)
         (fun k => k)
         (fun k => (0, 1024 * Z.of_nat k)).

(** * Properties *)

(** ** Decimal rounding *)

(** Rounding to the nearest integer moves a value by at most one half. *)
Lemma round_half_even_error (q : Q) :
  (Qabs (inject_Z (round_half_even q) - q) <= 1 # 2)%Q.
Proof.
  apply Qabs_Qle_condition.
  destruct q as [n d]. unfold round_half_even. cbn [Qnum Qden].
  pose proof (Z.div_mod n (Zpos d) ltac:(lia)) as Hdm.
  pose proof (Z.mod_pos_bound n (Zpos d) ltac:(lia)) as Hb.
  set (fl := n / Zpos d) in *. set (r := n mod Zpos d) in *.
  assert (Hcases : forall z, (z = fl /\ 2 * r <= Zpos d)
                             \/ (z = fl + 1 /\ Zpos d <= 2 * r) ->
            (- (1 # 2) <= inject_Z z - (n # d) <= 1 # 2)%Q).
  { intros z Hz. unfold Qle, Qminus, Qplus, Qopp, inject_Z.
    cbn [Qnum Qden]. rewrite !Pos2Z.inj_mul. 
    destruct Hz as [[-> H]|[-> H]]; split; nia. }
  apply Hcases.
  destruct (Z.compare_spec (2 * r) (Zpos d)) as [H|H|H].
  - destruct (Z.even fl); [left|right]; split; lia.
  - left. split; lia.
  - right. split; lia.
Qed.

Lemma round_half_even_nonneg (q : Q) : (0 <= q)%Q -> 0 <= round_half_even q.
Proof.
  destruct q as [n d]. unfold Qle, round_half_even. cbn [Qnum Qden].
  intros H. assert (0 <= n) by lia.
  pose proof (Z.div_pos n (Zpos d) ltac:(lia) ltac:(lia)).
  destruct (2 * (n mod Zpos d) ?= Zpos d); [destruct (Z.even _)| |]; lia.
Qed.

Lemma str_of_int_digit (d : Z) :
  0 <= d < 10 ->
  str_of_int d = String (ascii_of_nat (48 + Z.to_nat d)) EmptyString.
Proof.
  intros H.
  assert (Hd : d = 0 \/ d = 1 \/ d = 2 \/ d = 3 \/ d = 4 \/ d = 5 \/ d = 6
               \/ d = 7 \/ d = 8 \/ d = 9) by lia.
  repeat (destruct Hd as [-> | Hd]; [reflexivity|]).
  subst d. reflexivity.
Qed.

Lemma round_half_even_tie (q : Q) :
  (Qabs (inject_Z (round_half_even q) - q) == 1 # 2)%Q ->
  Z.even (round_half_even q) = true.
Proof.
  destruct q as [n d]. unfold round_half_even. cbn [Qnum Qden].
  pose proof (Z.div_mod n (Zpos d) ltac:(lia)) as Hdm.
  pose proof (Z.mod_pos_bound n (Zpos d) ltac:(lia)) as Hb.
  set (fl := n / Zpos d) in *. set (r := n mod Zpos d) in *.
  destruct (Z.compare_spec (2 * r) (Zpos d)) as [H|H|H].
  - intros _. destruct (Z.even fl) eqn:He; [exact He|].
    rewrite Z.even_add, He. reflexivity.
  - unfold Qeq, Qabs, Qminus, Qplus, Qopp, inject_Z. cbn [Qnum Qden].
    rewrite !Pos2Z.inj_mul. intros Heq. exfalso. nia.
  - unfold Qeq, Qabs, Qminus, Qplus, Qopp, inject_Z. cbn [Qnum Qden].
    rewrite !Pos2Z.inj_mul. intros Heq. exfalso. nia.
Qed.

Lemma str_of_int_digits (n : Z) : 0 <= n -> str_of_int n = digits_of n.
Proof. intros H. destruct n; [reflexivity|reflexivity|lia]. Qed.

(** What [format_f 1] writes: the nearest tenths, the sign of the value. *)
Lemma format_f_tenths (x : Q) :
  exists k,
    nearest_tenths (Qabs x) k
    /\ format_f 1 x
       = (if Qlt_le_dec x 0 then "-" else "") ++ digits_of (k / 10) ++ "."
         ++ String (ascii_of_nat (48 + Z.to_nat (k mod 10))) EmptyString.
Proof.
  set (k := round_half_even (Qabs x * inject_Z 10)%Q).
  assert (Hk : 0 <= k).
  { apply round_half_even_nonneg.
    apply Qmult_le_0_compat; [apply Qabs_nonneg|discriminate]. }
  exists k. split; [split; [exact Hk|split]|].
  - apply round_half_even_error.
  - apply round_half_even_tie.
  - unfold format_f. change (10 ^ Z.of_nat 1) with 10. cbv zeta. fold k.
    pose proof (Z.mod_pos_bound k 10 ltac:(lia)) as Hb.
    rewrite (str_of_int_digit (k mod 10) Hb).
    rewrite str_of_int_digits by (apply Z.div_pos; lia). reflexivity.
Qed.

Lemma SF2Q_sign (s : bool) (m : positive) (e : Z) :
  if s then (SF2Q (S754_finite s m e) < 0)%Q
  else (0 < SF2Q (S754_finite s m e))%Q.
Proof.
  pose proof (Qpower_0_lt 2 e ltac:(reflexivity)) as Hp.
  unfold SF2Q. destruct (Qpower 2 e) as [pn pd].
  unfold Qlt, Qmult, inject_Z in *. cbn [Qnum Qden] in *.
  destruct s; nia.
Qed.

(** [format_float 1] writes what [.1f] has to write. *)
Lemma format_float_one_decimal (x : float) : one_decimal x (format_float 1 x).
Proof.
  unfold one_decimal, format_float.
  destruct (Prim2SF x) as [s|s| |s m e]; try reflexivity.
  - destruct s; reflexivity.
  - destruct (format_f_tenths (SF2Q (S754_finite s m e))) as [k [Hk Htext]].
    exists k. split; [exact Hk|]. rewrite Htext.
    pose proof (SF2Q_sign s m e) as Hs.
    destruct (Qlt_le_dec (SF2Q (S754_finite s m e)) 0) as [Hlt|Hge];
      destruct s; try reflexivity; exfalso.
    + apply (Qlt_irrefl 0). now apply Qlt_trans with (SF2Q (S754_finite false m e)).
    + apply (Qlt_irrefl 0). now apply Qle_lt_trans with (SF2Q (S754_finite true m e)).
Qed.

(** ** Binary64 subtraction *)
















(** ** [range] and the loops over it *)

Lemma range_length (lo hi : Z) :
  List.length (range lo hi) = Z.to_nat (hi - lo).
Proof. unfold range. now rewrite length_map, length_seq. Qed.

Lemma range_cons (lo hi : Z) :
  lo < hi -> range lo hi = lo :: range (lo + 1) hi.
Proof.
  intros H. unfold range.
  replace (Z.to_nat (hi - lo)) with (S (Z.to_nat (hi - (lo + 1)))) by lia.
  cbn [seq map]. f_equal; [lia|].
  rewrite <- seq_shift, map_map.
  apply map_ext. intros k. lia.
Qed.

Lemma range_nil (lo hi : Z) : hi <= lo -> range lo hi = [].
Proof.
  intros H. unfold range.
  now replace (Z.to_nat (hi - lo)) with 0%nat by lia.
Qed.

Lemma range_app (lo mid hi : Z) :
  lo <= mid <= hi -> range lo hi = (range lo mid ++ range mid hi)%list.
Proof.
  intros [H1 H2].
  remember (Z.to_nat (mid - lo)) as n eqn:En.
  revert lo H1 En. induction n as [|n IH]; intros lo H1 En.
  - assert (lo = mid) by lia. subst lo.
    now rewrite (range_nil mid mid) by lia.
  - rewrite (range_cons lo hi), (range_cons lo mid) by lia.
    cbn [app]. f_equal. apply IH; lia.
Qed.

Lemma range_In (lo hi x : Z) : In x (range lo hi) <-> lo <= x < hi.
Proof.
  unfold range. rewrite in_map_iff. split.
  - intros [k [<- Hk]]. apply in_seq in Hk. lia.
  - intros H. exists (Z.to_nat (x - lo)). split; [lia|].
    apply in_seq. lia.
Qed.

(** Ten consecutive iterations of the counting loop add 45, wherever the
    block of ten starts. *)
(** The counting loop adds the residues of the numbers it visits. *)
Lemma count_fold (l : list Z) (acc : Z) :
  fold_left (fun sum i => sum + i mod 10) l acc
  = acc + fold_right Z.add 0 (map (fun i => i mod 10) l).
Proof.
  revert acc. induction l as [|i l IH]; intros acc; cbn [fold_left map fold_right].
  - lia.
  - rewrite IH. lia.
Qed.

Lemma range_block (lo : Z) :
  range lo (lo + 10) = map (fun k => lo + k) [0; 1; 2; 3; 4; 5; 6; 7; 8; 9].
Proof.
  unfold range. replace (Z.to_nat (lo + 10 - lo)) with 10%nat by lia.
  reflexivity.
Qed.

(** Ten consecutive integers have the residues [0..9], in some rotation. *)
Lemma block_residues (lo : Z) :
  fold_right Z.add 0 (map (fun i => i mod 10) (range lo (lo + 10))) = 45.
Proof.
  rewrite range_block. cbn [map fold_right].
  rewrite <- !(Zplus_mod_idemp_l lo).
  pose proof (Z.mod_pos_bound lo 10 eq_refl) as Hb.
  generalize dependent (lo mod 10). intros r Hb.
  assert (Hr : r = 0 \/ r = 1 \/ r = 2 \/ r = 3 \/ r = 4 \/ r = 5 \/ r = 6
               \/ r = 7 \/ r = 8 \/ r = 9) by lia.
  repeat (destruct Hr as [-> | Hr]; [reflexivity|]).
  subst r. reflexivity.
Qed.

(** Ten consecutive iterations of the counting loop add 45, wherever the
    block of ten starts. *)
Lemma count_block (lo acc : Z) :
  fold_left (fun sum i => sum + i mod 10) (range lo (lo + 10)) acc = acc + 45.
Proof. now rewrite count_fold, block_residues. Qed.

(** The counting loop over [n] blocks of ten. *)
Lemma count_loop_blocks (n acc : Z) :
  0 <= n -> count_loop (1 + 10 * n) acc = acc + 45 * n.
Proof.
  intros Hn. revert acc. pattern n. apply natlike_ind; [| |exact Hn].
  - intros acc. unfold count_loop. rewrite range_nil by lia.
    cbn [fold_left]. lia.
  - intros m Hm IH acc. unfold count_loop in *.
    rewrite (range_app 1 (1 + 10 * m)) by lia.
    rewrite fold_left_app, IH.
    replace (1 + 10 * Z.succ m) with (1 + 10 * m + 10) by lia.
    rewrite count_block. lia.
Qed.

Lemma count_loop_1M (acc : Z) : count_loop 1000001 acc = acc + 4500000.
Proof.
  change 1000001 with (1 + 10 * 100000).
  rewrite count_loop_blocks by lia. lia.
Qed.


Lemma count_loop_eq (hi acc : Z) :
  fold_left (fun sum i => sum + i mod 10) (range 1 hi) acc = count_loop hi acc.
Proof. reflexivity. Qed.

(** C7.  [test_arithmetic()] returns the sum of [i mod 10] over [1..1000000],
    whose closed form is 100000 blocks of [0+1+...+9], that is 4500000. *)
Theorem test_arithmetic_closed_form :
  benchmark.test_arithmetic = 100000 * (0 + 1 + 2 + 3 + 4 + 5 + 6 + 7 + 8 + 9)
  /\ benchmark.test_arithmetic = 4500000.
Proof.
  assert (H : benchmark.test_arithmetic = 4500000).
  { unfold benchmark.test_arithmetic.
    rewrite count_loop_eq, count_loop_1M. apply Z.add_0_l. }
  split; [|exact H].
  rewrite H. apply eq_refl.
Qed.

(** ** The nested loops *)

(** The inner loop adds [i] times the sum of the [j]s. *)
Lemma inner_loop (i : Z) (js : list Z) (acc : Z) :
  fold_left (fun sum j => sum + i * j) js acc
  = acc + i * fold_right Z.add 0 js.
Proof.
  revert acc. induction js as [|j js IH]; intros acc; cbn [fold_left fold_right].
  - ring.
  - rewrite IH. ring.
Qed.

(** The double loop adds the product of the two sums. *)
Lemma nested_loops (xs js : list Z) (acc : Z) :
  fold_left (fun sum i => fold_left (fun sum j => sum + i * j) js sum) xs acc
  = acc + fold_right Z.add 0 xs * fold_right Z.add 0 js.
Proof.
  revert acc. induction xs as [|i xs IH]; intros acc; cbn [fold_left fold_right].
  - ring.
  - rewrite IH, inner_loop. ring.
Qed.

(** Gauss: [2 * (lo + ... + hi) = (hi - lo + 1) * (lo + hi)]. *)
Lemma sigma_gauss (lo hi : Z) :
  lo <= hi + 1 -> 2 * sigma lo hi = (hi - lo + 1) * (lo + hi).
Proof.
  intros H. unfold sigma.
  remember (Z.to_nat (hi + 1 - lo)) as n eqn:En.
  revert lo H En. induction n as [|n IH]; intros lo H En.
  - rewrite range_nil by lia. cbn [fold_right].
    replace hi with (lo - 1) by lia. ring.
  - rewrite range_cons by lia. cbn [fold_right].
    rewrite Z.mul_add_distr_l, (IH (lo + 1)) by lia. ring.
Qed.

(** Gauss at 100. *)
Lemma sigma_1_100 : sigma 1 100 = 5050.
Proof.
  pose proof (sigma_gauss 1 100) as G.
  generalize dependent (sigma 1 100). intros s G.
  lia.
Qed.

(** The nested loops compute the product of the two sums. *)
Lemma nested_loops_sigma : benchmark.test_nested_loops = sigma 1 100 * sigma 1 100.
Proof.
  unfold benchmark.test_nested_loops. rewrite nested_loops.
  unfold sigma. apply Z.add_0_l.
Qed.

(** C8.  [test_nested_loops()] returns the product of the two single sums
    [1 + ... + 100], that is 5050 * 5050 = 25502500. *)
Theorem test_nested_loops_product :
  benchmark.test_nested_loops = sigma 1 100 * sigma 1 100
  /\ sigma 1 100 = 5050
  /\ benchmark.test_nested_loops = 25502500.
Proof.
  split; [exact nested_loops_sigma|]. split; [exact sigma_1_100|].
  rewrite nested_loops_sigma, sigma_1_100. apply eq_refl.
Qed.

(** ** The monad of the main thread *)

Lemma bind_Normal {A B : Type} (c : M A) (k : A -> M B) E w a w' :
  c E w = Normal a w' -> bind c k E w = k a E w'.
Proof. intros H. cbn [bind M_Monad]. now rewrite H. Qed.

Lemma bind_Raised {A B : Type} (c : M A) (k : A -> M B) E w e w' :
  c E w = Raised e w' -> bind c k E w = Raised e w'.
Proof. intros H. cbn [bind M_Monad]. now rewrite H. Qed.

Lemma bind_time {B : Type} (k : float -> M B) E w :
  bind time_time k E w = k (clock E (ticks w)) E (tick w).
Proof. reflexivity. Qed.

Lemma bind_print {B : Type} (s : string) (k : unit -> M B) E w :
  bind (print s) k E w = k tt E (emit s w).
Proof. reflexivity. Qed.

(** ** The timing harness *)

Lemma string_app_assoc (s1 s2 s3 : string) :
  (s1 ++ s2) ++ s3 = s1 ++ (s2 ++ s3).
Proof.
  induction s1 as [|c s1 IH]; cbn [String.append]; [reflexivity|].
  now rewrite IH.
Qed.

(** What [benchmark(name, fn)] does, in terms of the one run of [fn]. *)
Lemma benchmark_run {A : Type} (name : string) (fn : M A) E w :
  benchmark.benchmark name fn E w
  = match fn E (enter (tick w)) with
    | Normal result w2 =>
        Normal result (emit (report name (harness_elapsed E w w2)) (tick w2))
    | Raised e w2 => Raised e w2
    end.
Proof.
  unfold benchmark.benchmark. rewrite bind_time.
  cbn [bind M_Monad]. unfold invoke.
  destruct (fn E (enter (tick w))) as [result w2 | e w2]; reflexivity.
Qed.

(** C4.  When the workload returns normally, [benchmark(label, fn)] calls it
    once, returns its value, and writes after whatever the workload itself
    wrote exactly the line [<label>: <elapsed>ms]: the elapsed time, the
    binary64 difference of the two time stamps, with one digit after the
    point. *)
Theorem benchmark_returns_and_reports {A : Type} (name : string) (fn : M A)
    (E : env) (w : world) (result : A) (w2 : world) :
  fn E (enter (tick w)) = Normal result w2 ->
  invocations w2 = invocations (enter (tick w)) ->
  exists w3 text,
    benchmark.benchmark name fn E w = Normal result w3
    /\ invocations w3 = S (invocations w)
    /\ stdout w3
       = stdout w2 ++ name ++ ": " ++ text ++ "ms"
         ++ String "010" EmptyString
    /\ one_decimal
         (clock E (ticks w2) * 1000 - clock E (ticks w) * 1000)%float text.
Proof.
  intros Hfn Hghost.
  exists (emit (report name (harness_elapsed E w w2)) (tick w2)).
  exists (format_float 1 (harness_elapsed E w w2)).
  rewrite benchmark_run, Hfn.
  split; [reflexivity|]. split; [|split].
  - cbn [invocations emit tick]. rewrite Hghost. reflexivity.
  - cbn [stdout emit tick]. unfold report.
    now rewrite !string_app_assoc.
  - apply format_float_one_decimal.
Qed.

(** C6.  When the workload raises, [benchmark(label, fn)] raises the same
    exception and leaves the world as the workload left it: no report line
    is written. *)
Theorem benchmark_propagates {A : Type} (name : string) (fn : M A)
    (E : env) (w : world) (e : exn) (w2 : world) :
  fn E (enter (tick w)) = Raised e w2 ->
  benchmark.benchmark name fn E w = Raised e w2.
Proof. intros Hfn. now rewrite benchmark_run, Hfn. Qed.

Lemma benchmark_returns_and_reports_witness :
  workload 5 steady_env (enter (tick w0)) = Normal 5 (enter (tick w0))
  /\ exists w3 text,
       benchmark.benchmark "Arithmetic" (workload 5) steady_env w0
       = Normal 5 w3
       /\ invocations w3 = 1%nat
       /\ stdout w3
          = "Arithmetic" ++ ": " ++ text ++ "ms" ++ String "010" EmptyString
       /\ one_decimal
            (clock steady_env 1 * 1000 - clock steady_env 0 * 1000)%float text.
Proof.
  split; [reflexivity|].
  exact (benchmark_returns_and_reports "Arithmetic" (workload 5)
           steady_env w0 5 (enter (tick w0)) eq_refl eq_refl).
Defined.

(** Two runs of the harness, computed: one second between the samples
    prints [1000.0]; a quarter of a millisecond at an epoch near 1.76e9 s,
    where the time stamps carry about a quarter of a microsecond of
    rounding, prints [0.2]. *)
Lemma benchmark_prints_binary64_digits :
  benchmark.benchmark "Arithmetic" (workload 5) steady_env w0
  = Normal 5 (mk_world 2 ("Arithmetic: 1000.0ms" ++ newline) 0 1)
  /\ benchmark.benchmark "f" (workload 5)
       (mk_env (fun k => match k with
                         | O => 1762246800%float
                         | _ => 0x1.a427024000419p+30%float
                         end)
               (http steady_env) None (fun k => k) (traced_memory steady_env))
       w0
     = Normal 5 (mk_world 2 ("f: 0.2ms" ++ newline) 0 1).
Proof. split; vm_compute; reflexivity. Qed.

Lemma benchmark_propagates_witness :
  benchmark.benchmark "Arithmetic" (raise (A := Z) KeyboardInterrupt)
    steady_env w0
  = Raised KeyboardInterrupt (enter (tick w0))
  /\ stdout (enter (tick w0)) = "".
Proof.
  split; [|reflexivity].
  exact (benchmark_propagates "Arithmetic" (raise KeyboardInterrupt)
           steady_env w0 KeyboardInterrupt (enter (tick w0)) eq_refl).
Defined.

(** ** The HTTP workers *)

Lemma first_fatal_None (E : env) (id : Z) (l : list Z) :
  recoverable E -> first_fatal E id l = None.
Proof.
  intros HE. induction l as [|i l IH]; cbn [first_fatal]; [reflexivity|].
  destruct (http E id i) as [s|e] eqn:Hi; [exact IH|].
  now rewrite (HE id i e Hi).
Qed.

Lemma first_fatal_Some (E : env) (id : Z) (l : list Z) (e : exn) :
  first_fatal E id l = Some e -> exists i, In i l /\ fatal E id i e.
Proof.
  induction l as [|i l IH]; cbn [first_fatal]; [discriminate|].
  destruct (http E id i) as [s|e'] eqn:Hi.
  - intros H. destruct (IH H) as [j [Hj Hf]]. exists j. split; [now right|exact Hf].
  - destruct (is_Exception e') eqn:He.
    + intros H. destruct (IH H) as [j [Hj Hf]]. exists j.
      split; [now right|exact Hf].
    + intros [= <-]. exists i. split; [now left|]. now split.
Qed.

(** The loop of the workers, for any list of attempts and any list of
    entries recorded before. *)
Lemma attempts_loop (E : env) (id : Z) (l : list Z) (acc : list entry) :
  for_each l acc (fun results i =>
    try_except
      (response <- requests_get id i "https://httpbin.org/delay/1" 15 ;;
       if status_code response =? 200
       then ret (results ++ [Success i (status_code response)])%list
       else ret results)
      (fun e => ret (results ++ [Error i (exn_str e)])%list)) E
  = match first_fatal E id l with
    | None => Ok (acc ++ recorded E id l)%list
    | Some e => Err e
    end.
Proof.
  revert acc. induction l as [|i l IH]; intros acc.
  - cbn. now rewrite app_nil_r.
  - cbn [for_each first_fatal]. cbn [bind W_Monad].
    unfold try_except at 1. unfold requests_get at 1. cbn [bind W_Monad ret].
    unfold recorded. cbn [flat_map]. fold (recorded E id l).
    destruct (http E id i) as [s|e] eqn:Hi; cbn [status_code entry_of].
    + destruct (s =? 200); rewrite IH;
        destruct (first_fatal E id l); try reflexivity.
      now rewrite <- app_assoc.
    + destruct (is_Exception e); [|reflexivity].
      rewrite IH. destruct (first_fatal E id l); [reflexivity|].
      now rewrite <- app_assoc.
Qed.

Lemma fetch_attempts_run (E : env) (id : Z) :
  spawn_benchmark_fetch.attempts id E
  = match first_fatal E id (range 1 6) with
    | None => Ok (recorded E id (range 1 6))
    | Some e => Err e
    end.
Proof. unfold spawn_benchmark_fetch.attempts. now rewrite attempts_loop. Qed.

Lemma lite_attempts_eq :
  spawn_benchmark_fetch_lite.attempts = spawn_benchmark_fetch.attempts.
Proof. reflexivity. Qed.

Lemma memory_attempts_eq :
  spawn_benchmark_fetch_lite_memory.attempts = spawn_benchmark_fetch.attempts.
Proof. reflexivity. Qed.

Lemma lite_worker_eq :
  spawn_benchmark_fetch_lite.worker = spawn_benchmark_fetch.worker.
Proof. reflexivity. Qed.

Lemma memory_worker_eq :
  spawn_benchmark_fetch_lite_memory.worker = spawn_benchmark_fetch.worker.
Proof. reflexivity. Qed.

Lemma fetch_worker_run (E : env) (id : Z) :
  spawn_benchmark_fetch.worker id E
  = match first_fatal E id (range 1 6) with
    | None => Ok (mk_fetch id (len (recorded E id (range 1 6))))
    | Some e => Err e
    end.
Proof.
  unfold spawn_benchmark_fetch.worker. cbn [bind W_Monad].
  rewrite fetch_attempts_run.
  now destruct (first_fatal E id (range 1 6)).
Qed.

(** Every entry comes from one attempt. *)
Lemma recorded_In (E : env) (id : Z) (l : list Z) (x : entry) :
  In x (recorded E id l)
  <-> exists i, In i l /\ In x (entry_of i (http E id i)).
Proof. unfold recorded. apply in_flat_map. Qed.

Lemma entry_of_attempt (i : Z) (o : http_outcome) (x : entry) :
  In x (entry_of i o) -> attempt_of x = i.
Proof.
  destruct o as [s|e]; cbn [entry_of].
  - destruct (s =? 200); [|contradiction]. now intros [<- | []].
  - now intros [<- | []].
Qed.

Lemma entry_of_length (E : env) (id i : Z) :
  (List.length (entry_of i (http E id i)) <= 1)%nat
  /\ (List.length (entry_of i (http E id i)) = 0%nat <-> rejected E id i).
Proof.
  unfold rejected. destruct (http E id i) as [s|e]; cbn [entry_of].
  - destruct (Z.eqb_spec s 200) as [Hs|Hs]; cbn [List.length].
    + split; [lia|]. split; [discriminate|]. intros [s' [[= <-] Hs']]. contradiction.
    + split; [lia|]. split; [|reflexivity]. intros _. now exists s.
  - cbn [List.length]. split; [lia|]. split; [discriminate|]. now intros [s [? _]].
Qed.

(** One entry per attempt, except for the attempts answered with a status
    other than 200, which leave none. *)
Lemma recorded_length (E : env) (id : Z) (l : list Z) :
  (List.length (recorded E id l) <= List.length l)%nat
  /\ ((List.length (recorded E id l) < List.length l)%nat
      <-> exists i, In i l /\ rejected E id i).
Proof.
  induction l as [|i l [IHle IHlt]].
  - cbn. split; [lia|]. split; [lia|]. now intros [i [[] _]].
  - unfold recorded in *. cbn [flat_map List.length]. rewrite length_app.
    destruct (entry_of_length E id i) as [H1 H0].
    split; [lia|]. split.
    + intros Hlt.
      destruct (Nat.eq_dec (List.length (entry_of i (http E id i))) 0) as [Hz|Hz].
      * exists i. split; [now left|now apply H0].
      * destruct IHlt as [IH _]. destruct IH as [j [Hj Hr]]; [lia|].
        exists j. split; [now right|exact Hr].
    + intros [j [[<- | Hj] Hr]].
      * apply H0 in Hr. lia.
      * destruct IHlt as [_ IH]. specialize (IH (ex_intro _ j (conj Hj Hr))). lia.
Qed.

Lemma range_1_6_length : List.length (range 1 6) = 5%nat.
Proof. reflexivity. Qed.

(** C9.  A worker that returns reports at most 5 requests, and fewer than 5
    exactly when one of its five GETs returned a response whose status is
    not 200; it fails to return only when a GET raised something that is
    not an [Exception].  The three scripts have the same worker. *)
Theorem requests_at_most_5 (E : env) (id : Z) :
  spawn_benchmark_fetch_lite.worker id E = spawn_benchmark_fetch.worker id E
  /\ spawn_benchmark_fetch_lite_memory.worker id E
     = spawn_benchmark_fetch.worker id E
  /\ match spawn_benchmark_fetch.worker id E with
     | Ok r =>
         worker_id r = id
         /\ 0 <= requests r <= 5
         /\ (requests r < 5 <-> exists i, 1 <= i <= 5 /\ rejected E id i)
     | Err e => exists i, 1 <= i <= 5 /\ fatal E id i e
     end.
Proof.
  split; [reflexivity|]. split; [reflexivity|].
  rewrite fetch_worker_run.
  destruct (first_fatal E id (range 1 6)) as [e|] eqn:Hf.
  - destruct (first_fatal_Some E id _ e Hf) as [i [Hi He]].
    exists i. apply range_In in Hi. split; [lia|exact He].
  - cbn [worker_id requests]. unfold len.
    destruct (recorded_length E id (range 1 6)) as [Hle Hlt].
    rewrite range_1_6_length in Hle, Hlt.
    split; [reflexivity|]. split; [lia|]. split.
    + intros H. destruct Hlt as [Hlt _].
      destruct Hlt as [i [Hi Hr]]; [lia|].
      exists i. apply range_In in Hi. split; [lia|exact Hr].
    + intros [i [Hi Hr]]. destruct Hlt as [_ Hlt].
      assert (In i (range 1 6)) by (apply range_In; lia).
      specialize (Hlt (ex_intro _ i (conj H Hr))). lia.
Qed.

(** C1, as the code has it.  When the GETs raise nothing but [Exception]s
    (timeouts, connection errors), the loop of a worker ends normally with
    one error entry for every attempt that raised and one success entry for
    every attempt answered with 200; an attempt answered with another
    status leaves no entry; the worker returns, and its count is 5 when no
    attempt was answered with a status other than 200. *)
Theorem failures_recorded (E : env) (id : Z) :
  recoverable E ->
  spawn_benchmark_fetch.attempts id E = Ok (recorded E id (range 1 6))
  /\ spawn_benchmark_fetch_lite.attempts id E = Ok (recorded E id (range 1 6))
  /\ (forall i e, 1 <= i <= 5 -> http E id i = Failed e ->
        In (Error i (exn_str e)) (recorded E id (range 1 6)))
  /\ (forall i, 1 <= i <= 5 -> http E id i = Responded 200 ->
        In (Success i 200) (recorded E id (range 1 6)))
  /\ (forall i x, rejected E id i -> In x (recorded E id (range 1 6)) ->
        attempt_of x <> i)
  /\ (exists r, spawn_benchmark_fetch.worker id E = Ok r
                /\ spawn_benchmark_fetch_lite.worker id E = Ok r
                /\ ((forall i, 1 <= i <= 5 -> ~ rejected E id i) ->
                    requests r = 5)).
Proof.
  intros HE.
  assert (Hrun : spawn_benchmark_fetch.attempts id E
                 = Ok (recorded E id (range 1 6))).
  { now rewrite fetch_attempts_run, first_fatal_None. }
  split; [exact Hrun|]. split; [exact Hrun|]. split; [|split; [|split]].
  - intros i e Hi He. apply recorded_In. exists i.
    split; [apply range_In; lia|]. rewrite He. now left.
  - intros i Hi Hs. apply recorded_In. exists i.
    split; [apply range_In; lia|]. rewrite Hs. now left.
  - intros i x [s [Hs Hne]] Hx Heq.
    apply recorded_In in Hx. destruct Hx as [j [_ Hj]].
    rewrite (entry_of_attempt _ _ _ Hj) in Heq. subst j.
    rewrite Hs in Hj. cbn [entry_of] in Hj.
    destruct (Z.eqb_spec s 200); [contradiction|destruct Hj].
  - exists (mk_fetch id (len (recorded E id (range 1 6)))).
    assert (Hw : spawn_benchmark_fetch.worker id E
                 = Ok (mk_fetch id (len (recorded E id (range 1 6))))).
    { now rewrite fetch_worker_run, first_fatal_None. }
    split; [exact Hw|]. split; [exact Hw|].
    intros Hnone. cbn [requests]. unfold len.
    destruct (recorded_length E id (range 1 6)) as [Hle Hlt].
    rewrite range_1_6_length in Hle, Hlt.
    destruct (Nat.eq_dec (List.length (recorded E id (range 1 6))) 5) as [->|Hn];
      [reflexivity|].
    destruct Hlt as [Hlt _]. destruct Hlt as [i [Hi Hr]]; [lia|].
    apply range_In in Hi. exfalso. apply (Hnone i); [lia|exact Hr].
Qed.

Lemma flaky_env_recoverable : recoverable flaky_env.
Proof.
  intros id i e. cbn [http flaky_env].
  destruct (i =? 3); [discriminate|].
  destruct (i =? 4); [|discriminate].
  now intros [= <-].
Qed.

Lemma failures_recorded_witness :
  recoverable flaky_env
  /\ spawn_benchmark_fetch.attempts 7 flaky_env
     = Ok (recorded flaky_env 7 (range 1 6))
  /\ In (Error 4 (exn_str Timeout)) (recorded flaky_env 7 (range 1 6)).
Proof.
  pose proof (failures_recorded flaky_env 7 flaky_env_recoverable) as H.
  split; [exact flaky_env_recoverable|].
  split; [exact (proj1 H)|].
  exact (proj1 (proj2 (proj2 H)) 4 Timeout ltac:(lia) eq_refl).
Defined.

(** C1 does not hold as stated: in [flaky_env] the third attempt is
    answered with status 500; the worker's list gets no entry for it and
    the worker returns 4, not 5. *)
Lemma non_200_leaves_no_entry :
  http flaky_env 7 3 = Responded 500
  /\ spawn_benchmark_fetch.attempts 7 flaky_env
     = Ok [Success 1 200; Success 2 200;
           Error 4 "Read timed out. (read timeout=15)"; Success 5 200]
  /\ spawn_benchmark_fetch.worker 7 flaky_env = Ok (mk_fetch 7 4)
  /\ spawn_benchmark_fetch_lite.worker 7 flaky_env = Ok (mk_fetch 7 4)
  /\ ~ (exists r msg,
          spawn_benchmark_fetch.attempts 7 flaky_env = Ok r
          /\ In (Error 3 msg) r)
  /\ spawn_benchmark_fetch.worker 7 flaky_env <> Ok (mk_fetch 7 5).
Proof.
  split; [reflexivity|]. split; [reflexivity|].
  split; [reflexivity|]. split; [reflexivity|]. split.
  - intros [r [msg [Hr Hin]]]. vm_compute in Hr. injection Hr as <-.
    cbn [In] in Hin.
    destruct Hin as [H|[H|[H|[H|[]]]]]; discriminate.
  - vm_compute. discriminate.
Qed.

(** ** Pools, comprehensions, completion order *)

Lemma Pool_None (E : env) (w : world) :
  multiprocessing.Pool None E w
  = Normal (multiprocessing.mk_pool (default_processes E)) w.
Proof.
  unfold multiprocessing.Pool, default_processes.
  destruct (cpu_count E) as [c|]; [|reflexivity].
  destruct (Z.ltb_spec (Zpos c) 1) as [H|H]; [lia|reflexivity].
Qed.

Lemma ThreadPoolExecutor_pos (n : Z) (E : env) (w : world) :
  0 < n -> futures.ThreadPoolExecutor n E w = Normal (futures.mk_executor n) w.
Proof.
  intros H. unfold futures.ThreadPoolExecutor.
  destruct (Z.leb_spec n 0); [lia|reflexivity].
Qed.

Lemma comprehension_deliver {A B : Type} (f : A -> res B) (l : list A) E w :
  comprehension (fun a => deliver (f a)) l E w
  = match collect (map f l) with
    | Ok vs => Normal vs w
    | Err e => Raised e w
    end.
Proof.
  induction l as [|a l IH]; [reflexivity|].
  cbn [comprehension map collect]. cbn [bind M_Monad].
  destruct (f a) as [b|e]; cbn [deliver]; [|reflexivity].
  cbn [ret M_Monad]. rewrite IH.
  now destruct (collect (map f l)).
Qed.

Lemma collect_Ok {A B : Type} (f : A -> res B) (g : A -> B) (l : list A) :
  (forall a, In a l -> f a = Ok (g a)) -> collect (map f l) = Ok (map g l).
Proof.
  induction l as [|a l IH]; intros H; [reflexivity|].
  cbn [map collect]. rewrite (H a) by now left.
  rewrite IH; [reflexivity|]. intros b Hb. apply H. now right.
Qed.

Lemma collect_length {A : Type} (l : list (res A)) (vs : list A) :
  collect l = Ok vs -> List.length vs = List.length l.
Proof.
  revert vs. induction l as [|[a|e] l IH]; intros vs; cbn [collect].
  - now intros [= <-].
  - destruct (collect l) as [vs'|e]; [|discriminate].
    intros [= <-]. cbn [List.length]. now rewrite (IH vs').
  - discriminate.
Qed.

Lemma collect_Err {A B : Type} (f : A -> res B) (l : list A) (e : exn) :
  collect (map f l) = Err e -> exists a, In a l /\ f a = Err e.
Proof.
  induction l as [|a l IH]; cbn [map collect]; [discriminate|].
  destruct (f a) as [b|e'] eqn:Ha.
  - destruct (collect (map f l)) as [vs|e'']; [discriminate|].
    intros [= <-]. destruct (IH eq_refl) as [a' [Hin Ha']].
    exists a'. split; [now right|exact Ha'].
  - intros [= <-]. exists a. split; [now left|exact Ha].
Qed.

Lemma starmap_run {A B : Type} (p : multiprocessing.pool) (func : A -> W B)
    (l : list A) E w :
  multiprocessing.starmap p func l E w
  = match collect (map (fun a => func a E) l) with
    | Ok vs => Normal vs w
    | Err e => Raised e w
    end.
Proof.
  unfold multiprocessing.starmap.
  apply (comprehension_deliver (fun a => func a E)).
Qed.

(** ** The CPU-bound workers and the process-pool scripts *)

Lemma cpu_worker_run (k : Z) (E : env) :
  spawn_benchmark.worker k E = Ok (spawn_benchmark.mk_result k 4500000).
Proof.
  unfold spawn_benchmark.worker. cbv zeta.
  rewrite count_loop_eq, count_loop_1M. reflexivity.
Qed.

Lemma spawn_only_worker_run (k : Z) (E : env) :
  spawn_benchmark_spawn_only.worker k E
  = Ok (spawn_benchmark_spawn_only.mk_result k 4500000).
Proof.
  unfold spawn_benchmark_spawn_only.worker. cbv zeta.
  rewrite count_loop_eq, count_loop_1M. reflexivity.
Qed.

Lemma range_1_1001_len {A : Type} (g : Z -> A) :
  len (map g (range 1 1001)) = 1000.
Proof. unfold len. rewrite length_map, range_length. reflexivity. Qed.

(** The whole run of [spawn_benchmark.main]. *)
Lemma spawn_benchmark_main_run (E : env) (w : world) :
  spawn_benchmark.main E w
  = Normal
      (spawn_benchmark.mk_locals
         (multiprocessing.mk_pool (default_processes E))
         (map (fun k => spawn_benchmark.mk_result k 4500000) (range 1 1001))
         (interval E (ticks w) (S (ticks w))))
      (emit "Completed 1000 workers"
         (emit ("Spawn and complete 1000 workers: "
                ++ format_float 1 (interval E (ticks w) (S (ticks w))) ++ "ms")
            (tick (tick (emit "=== Python Spawn Benchmark ===" w))))).
Proof.
  unfold spawn_benchmark.main.
  rewrite bind_print, bind_time. cbv zeta.
  rewrite (bind_Normal _ _ _ _ _ _ (Pool_None _ _)).
  erewrite bind_Normal; cycle 1.
  { rewrite starmap_run, map_id.
    rewrite (collect_Ok _ (fun k => spawn_benchmark.mk_result k 4500000));
      [reflexivity|].
    intros k _. apply cpu_worker_run. }
  rewrite bind_time, bind_print, bind_print.
  rewrite range_1_1001_len. reflexivity.
Qed.

Lemma apply_async_loop {A B : Type} (p : multiprocessing.pool)
    (func : A -> W B) (l : list A)
    (acc : list (multiprocessing.AsyncResult B)) E w :
  for_each l acc (fun async_results i =>
    r <- multiprocessing.apply_async p func i ;;
    ret (async_results ++ [r])%list) E w
  = Normal (acc ++ map (fun i => multiprocessing.mk_async (func i)) l)%list w.
Proof.
  revert acc. induction l as [|i l IH]; intros acc.
  - cbn. now rewrite app_nil_r.
  - cbn [for_each map]. cbn [bind M_Monad].
    unfold multiprocessing.apply_async at 1. cbn [ret M_Monad].
    rewrite IH. now rewrite <- app_assoc.
Qed.

(** The whole run of [spawn_benchmark_spawn_only.main]. *)
Lemma spawn_only_main_run (E : env) (w : world) :
  spawn_benchmark_spawn_only.main E w
  = Normal
      (spawn_benchmark_spawn_only.mk_locals
         (multiprocessing.mk_pool (default_processes E))
         (map (fun i => multiprocessing.mk_async
                          (spawn_benchmark_spawn_only.worker i))
              (range 1 1001))
         (interval E (ticks w) (S (ticks w))))
      (emit "Submitted 1000 tasks"
         (emit ("Submit 1000 worker tasks: "
                ++ format_float 1 (interval E (ticks w) (S (ticks w))) ++ "ms")
            (tick (tick
               (emit "=== Python Spawn Benchmark (spawn time only) ===" w))))).
Proof.
  unfold spawn_benchmark_spawn_only.main.
  rewrite bind_print, bind_time. cbv zeta.
  rewrite (bind_Normal _ _ _ _ _ _ (Pool_None _ _)).
  rewrite (bind_Normal _ _ _ _ _ _ (apply_async_loop _ _ _ _ _ _)).
  cbn [app].
  rewrite bind_time, bind_print, bind_print.
  rewrite range_1_1001_len. reflexivity.
Qed.

Lemma nth_error_range (lo hi k : Z) :
  lo <= k < hi -> nth_error (range lo hi) (Z.to_nat (k - lo)) = Some k.
Proof.
  intros H. unfold range.
  rewrite nth_error_map, nth_error_seq.
  destruct (Nat.ltb_spec (Z.to_nat (k - lo)) (Z.to_nat (hi - lo))) as [_|Hn];
    [|lia].
  cbn [option_map]. f_equal. lia.
Qed.

(** C10.  In the process-pool benchmark the results come in submission
    order: the list is [worker] mapped over [1..1000], its k-th element is
    [{worker_id: k, sum: 4500000}]. *)
Theorem results_in_submission_order (E : env) (w : world) :
  exists l w',
    spawn_benchmark.main E w = Normal l w'
    /\ collect (map (fun k => spawn_benchmark.worker k E) (range 1 1001))
       = Ok (spawn_benchmark.results l)
    /\ spawn_benchmark.results l
       = map (fun k => spawn_benchmark.mk_result k 4500000) (range 1 1001)
    /\ forall k, 1 <= k <= 1000 ->
         nth_error (spawn_benchmark.results l) (Z.to_nat (k - 1))
         = Some (spawn_benchmark.mk_result k 4500000).
Proof.
  eexists. eexists. split; [apply spawn_benchmark_main_run|].
  cbn [spawn_benchmark.results]. split; [|split; [reflexivity|]].
  - apply collect_Ok. intros k _. apply cpu_worker_run.
  - intros k Hk. rewrite nth_error_map, nth_error_range by lia. reflexivity.
Qed.

(** ** Futures and their completion order *)

Lemma submit_all {A B : Type} (ex : futures.executor) (fn : A -> W B)
    (l : list A) E w :
  comprehension (fun i => futures.submit ex fn i) l E w
  = Normal (map (fun i => futures.mk_future (fn i E)) l) w.
Proof.
  induction l as [|i l IH]; [reflexivity|].
  cbn [comprehension map]. cbn [bind M_Monad].
  unfold futures.submit at 1. rewrite IH. reflexivity.
Qed.

Lemma result_all {B : Type} (fs : list (futures.Future B)) E w :
  comprehension (fun f => futures.result f) fs E w
  = match collect (map futures.eventually fs) with
    | Ok vs => Normal vs w
    | Err e => Raised e w
    end.
Proof. apply (comprehension_deliver futures.eventually). Qed.

Lemma remove_nth_map {A B : Type} (h : A -> B) (j : nat) (l : list A) :
  futures.remove_nth j (map h l) = map h (futures.remove_nth j l).
Proof.
  revert j. induction l as [|x l IH]; intros [|j]; cbn; try reflexivity.
  now rewrite IH.
Qed.

Lemma remove_nth_length {A : Type} (j : nat) (l : list A) :
  (j < List.length l)%nat ->
  List.length (futures.remove_nth j l) = pred (List.length l).
Proof.
  revert j. induction l as [|x l IH]; intros [|j] H; cbn in *; try lia.
  rewrite IH by lia. destruct l; cbn in *; lia.
Qed.

Lemma nth_remove_nth_Permutation {A : Type} (j : nat) (l : list A) (d : A) :
  (j < List.length l)%nat ->
  Permutation (nth j l d :: futures.remove_nth j l) l.
Proof.
  revert j. induction l as [|x l IH]; intros [|j] H; cbn in *; try lia.
  - reflexivity.
  - rewrite perm_swap. constructor. apply IH. lia.
Qed.

(** The completion order depends on positions only. *)
Lemma complete_map {A B : Type} (h : A -> B) (n : nat) (order : nat -> nat)
    (k : nat) (l : list A) :
  futures.complete n order k (map h l) = map h (futures.complete n order k l).
Proof.
  revert k l. induction n as [|n IH]; intros k [|x l]; try reflexivity.
  cbn [futures.complete map]. rewrite <- (map_cons h x l).
  rewrite length_map, map_nth, remove_nth_map, IH. reflexivity.
Qed.

(** Every pending future completes exactly once. *)
Lemma complete_Permutation {A : Type} (n : nat) (order : nat -> nat)
    (k : nat) (l : list A) :
  n = List.length l -> Permutation (futures.complete n order k l) l.
Proof.
  revert k l. induction n as [|n IH]; intros k [|x l] Hn; try discriminate.
  - reflexivity.
  - cbn [futures.complete].
    assert (Hj : (order k mod List.length (x :: l) < List.length (x :: l))%nat)
      by (apply Nat.mod_upper_bound; discriminate).
    eapply Permutation_trans;
      [|exact (nth_remove_nth_Permutation _ (x :: l) x Hj)].
    constructor. apply IH. rewrite remove_nth_length by exact Hj.
    cbn [List.length] in *. lia.
Qed.

Lemma completion_order_Permutation (E : env) (lo hi : Z) :
  Permutation (completion_order E lo hi) (range lo hi).
Proof. now apply complete_Permutation. Qed.

Lemma completion_order_length (E : env) (lo hi : Z) :
  List.length (completion_order E lo hi) = Z.to_nat (hi - lo).
Proof.
  rewrite (Permutation_length (completion_order_Permutation E lo hi)).
  apply range_length.
Qed.

(** [as_completed] on the futures submitted for [range lo hi]. *)
Lemma as_completed_submitted {B : Type} (fn : Z -> W B) (lo hi : Z) E w :
  futures.as_completed (map (fun i => futures.mk_future (fn i E)) (range lo hi))
    E w
  = Normal (map (fun i => futures.mk_future (fn i E)) (completion_order E lo hi))
      w.
Proof.
  unfold futures.as_completed, completion_order.
  now rewrite length_map, complete_map.
Qed.

(** The workers of a run in which no request is fatal. *)
Lemma fetch_workers_Ok (E : env) (l : list Z) :
  recoverable E ->
  collect (map (fun i => spawn_benchmark_fetch.worker i E) l)
  = Ok (map (fetched E) l).
Proof.
  intros HE. apply collect_Ok. intros i _.
  now rewrite fetch_worker_run, first_fatal_None.
Qed.

Lemma bind_results {B C : Type} (fs : list (futures.Future B))
    (k : list B -> M C) E w :
  bind (comprehension (fun f => futures.result f) fs) k E w
  = match collect (map futures.eventually fs) with
    | Ok vs => k vs E w
    | Err e => Raised e w
    end.
Proof.
  cbn [bind M_Monad]. rewrite result_all.
  now destruct (collect (map futures.eventually fs)).
Qed.

(** ** The thread-pool scripts *)

(** The whole run of [spawn_benchmark_fetch.main]: its six clock samples
    are numbered [t .. t+5]; the run ends with the exception of the first
    completed worker that raised, if any did. *)
Lemma fetch_main_run (E : env) (w : world) :
  let t := ticks w in
  let w1 := emit "" (emit "Each worker makes 5 HTTP requests to httpbin.org/delay/1"
              (emit "=== Python I/O-Bound Benchmark ===" w)) in
  let w2 := tick (tick (tick (tick w1))) in
  spawn_benchmark_fetch.main E w
  = match collect (map (fun i => spawn_benchmark_fetch.worker i E)
                       (completion_order E 1 1001)) with
    | Ok results =>
        Normal
          (spawn_benchmark_fetch.mk_locals (futures.mk_executor 1000) results
             (interval E (1 + t) (2 + t)) (interval E (3 + t) (4 + t))
             (interval E t (5 + t)))
          (emit ("Average per worker: "
                 ++ format_float 3 (interval E (3 + t) (4 + t) / 1000)%float ++ "ms")
             (emit ("Total time: " ++ format_float 1 (interval E t (5 + t)) ++ "ms")
                (emit ("Wait for completion: "
                       ++ format_float 1 (interval E (3 + t) (4 + t)) ++ "ms")
                   (emit ("Spawn 1000 workers: "
                          ++ format_float 1 (interval E (1 + t) (2 + t)) ++ "ms")
                      (tick (tick w2))))))
    | Err e => Raised e w2
    end.
Proof.
  intros t w1 w2. subst t w1 w2. unfold spawn_benchmark_fetch.main.
  rewrite !bind_print, !bind_time. cbv zeta.
  rewrite (bind_Normal _ _ _ _ _ _ (ThreadPoolExecutor_pos 1000 _ _ eq_refl)).
  rewrite (bind_Normal _ _ _ _ _ _ (submit_all _ _ _ _ _)).
  rewrite !bind_time.
  rewrite (bind_Normal _ _ _ _ _ _ (as_completed_submitted _ _ _ _ _)).
  rewrite bind_results, map_map. cbn [futures.eventually].
  destruct (collect (map (fun i => spawn_benchmark_fetch.worker i E)
                         (completion_order E 1 1001))) as [results|e];
    [|reflexivity].
  rewrite !bind_time, !bind_print. reflexivity.
Qed.

(** The whole run of [spawn_benchmark_fetch_lite.main]. *)
Lemma lite_main_run (E : env) (w : world) :
  let t := ticks w in
  let w1 := emit "=== Python I/O-Bound Benchmark (100 workers) ===" w in
  let w2 := tick (tick (tick (tick w1))) in
  spawn_benchmark_fetch_lite.main E w
  = match collect (map (fun i => spawn_benchmark_fetch.worker i E)
                       (completion_order E 1 101)) with
    | Ok results =>
        Normal
          (spawn_benchmark_fetch_lite.mk_locals (futures.mk_executor 100)
             results
             (interval E (1 + t) (2 + t)) (interval E (3 + t) (4 + t))
             (interval E t (5 + t)))
          (emit ("Total time: " ++ format_float 1 (interval E t (5 + t)) ++ "ms")
             (emit ("Wait for completion: "
                    ++ format_float 1 (interval E (3 + t) (4 + t)) ++ "ms")
                (emit ("Spawn 100 workers: "
                       ++ format_float 1 (interval E (1 + t) (2 + t)) ++ "ms")
                   (tick (tick w2)))))
    | Err e => Raised e w2
    end.
Proof.
  intros t w1 w2. subst t w1 w2. unfold spawn_benchmark_fetch_lite.main.
  rewrite lite_worker_eq.
  rewrite !bind_print, !bind_time. cbv zeta.
  rewrite (bind_Normal _ _ _ _ _ _ (ThreadPoolExecutor_pos 100 _ _ eq_refl)).
  rewrite !bind_time.
  rewrite (bind_Normal _ _ _ _ _ _ (submit_all _ _ _ _ _)).
  rewrite !bind_time.
  rewrite (bind_Normal _ _ _ _ _ _ (as_completed_submitted _ _ _ _ _)).
  rewrite bind_results, map_map. cbn [futures.eventually].
  destruct (collect (map (fun i => spawn_benchmark_fetch.worker i E)
                         (completion_order E 1 101))) as [results|e];
    [|reflexivity].
  rewrite !bind_time, !bind_print. reflexivity.
Qed.

Lemma bind_mem {B : Type} (k : Z * Z -> M B) E w :
  bind get_traced_memory k E w
  = k (traced_memory E (mem_reads w)) E (mem_read w).
Proof. reflexivity. Qed.

Lemma iter_mem_read (n : nat) (w : world) :
  Nat.iter n mem_read w
  = mk_world (ticks w) (stdout w) (n + mem_reads w) (invocations w).
Proof.
  induction n as [|n IH]; [now destruct w|].
  rewrite Nat.iter_succ, IH. reflexivity.
Qed.

(** The waiting loop of the memory-tracking script, on futures that all
    end with a value: it only reads the traced memory, once per future. *)
Lemma memory_loop (fs : list (futures.Future fetch_result))
    (vs : list fetch_result) (p : Z) (acc : list fetch_result) E w :
  collect (map futures.eventually fs) = Ok vs ->
  for_each fs (p, acc) (fun st future =>
    let '(peak_memory, retrieved) := st in
    cp <- get_traced_memory ;;
    let '(current, peak) := cp in
    let peak_memory := Z.max peak_memory peak in
    r <- futures.result future ;;
    ret (peak_memory, (retrieved ++ [r])%list)) E w
  = Normal (peaks E (mem_reads w) (List.length fs) p, (acc ++ vs)%list)
      (Nat.iter (List.length fs) mem_read w).
Proof.
  revert vs p acc w. induction fs as [|f fs IH]; intros vs p acc w.
  - cbn [map collect]. intros [= <-]. cbn. now rewrite app_nil_r.
  - cbn [map collect]. destruct (futures.eventually f) as [v|e] eqn:Hf;
      [|discriminate].
    destruct (collect (map futures.eventually fs)) as [vs'|e] eqn:Hc;
      [|discriminate].
    intros [= <-]. cbn [for_each]. cbn [bind M_Monad].
    unfold get_traced_memory at 1.
    destruct (traced_memory E (mem_reads w)) as [current peak] eqn:Hm.
    unfold futures.result at 1. rewrite Hf. cbn [deliver ret M_Monad].
    rewrite (IH vs' _ _ _ eq_refl).
    cbn [List.length peaks]. rewrite Hm. cbn [snd].
    rewrite <- app_assoc. cbn [app]. rewrite !iter_mem_read.
    cbn [ticks stdout mem_reads invocations mem_read].
    f_equal. f_equal. lia.
Qed.

(** On futures of which one ends with an exception the loop raises it; the
    clock and standard output are as before the loop. *)
Lemma memory_loop_raises (fs : list (futures.Future fetch_result))
    (e : exn) (p : Z) (acc : list fetch_result) E w :
  collect (map futures.eventually fs) = Err e ->
  exists n,
    for_each fs (p, acc) (fun st future =>
      let '(peak_memory, retrieved) := st in
      cp <- get_traced_memory ;;
      let '(current, peak) := cp in
      let peak_memory := Z.max peak_memory peak in
      r <- futures.result future ;;
      ret (peak_memory, (retrieved ++ [r])%list)) E w
    = Raised e (Nat.iter n mem_read w).
Proof.
  revert p acc w. induction fs as [|f fs IH]; intros p acc w.
  - discriminate.
  - cbn [map collect for_each]. cbn [bind M_Monad].
    unfold get_traced_memory at 1.
    destruct (traced_memory E (mem_reads w)) as [current peak].
    unfold futures.result at 1.
    destruct (futures.eventually f) as [v|e'] eqn:Hf.
    + destruct (collect (map futures.eventually fs)) as [vs'|e''] eqn:Hc;
        [discriminate|].
      intros [= <-]. cbn [deliver ret M_Monad].
      destruct (IH (Z.max p peak) (acc ++ [v])%list (mem_read w) eq_refl)
        as [n Hn].
      exists (S n). rewrite Nat.iter_succ_r. exact Hn.
    + intros [= <-]. exists 1%nat. reflexivity.
Qed.

(** The run of [spawn_benchmark_fetch_lite_memory.main]. *)
Lemma memory_main_run (E : env) (w : world) :
  let t := ticks w in
  let n := List.length (completion_order E 1 101) in
  match collect (map (fun i => spawn_benchmark_fetch.worker i E)
                     (completion_order E 1 101)) with
  | Ok results =>
      exists w',
        spawn_benchmark_fetch_lite_memory.main E w
        = Normal
            (spawn_benchmark_fetch_lite_memory.mk_locals
               (futures.mk_executor 100) results
               (Z.max (peaks E (mem_reads w) n 0)
                      (snd (traced_memory E (n + mem_reads w))))
               (interval E (1 + t) (2 + t)) (interval E (3 + t) (4 + t))
               (interval E t (5 + t)))
            w'
  | Err e =>
      exists w', spawn_benchmark_fetch_lite_memory.main E w = Raised e w'
  end.
Proof.
  intros t n. subst t n. unfold spawn_benchmark_fetch_lite_memory.main.
  rewrite memory_worker_eq.
  rewrite bind_print, bind_time. cbv zeta.
  rewrite (bind_Normal _ _ _ _ _ _ (ThreadPoolExecutor_pos 100 _ _ eq_refl)).
  rewrite !bind_time.
  rewrite (bind_Normal _ _ _ _ _ _ (submit_all _ _ _ _ _)).
  rewrite !bind_time.
  rewrite (bind_Normal _ _ _ _ _ _ (as_completed_submitted _ _ _ _ _)).
  destruct (collect (map (fun i => spawn_benchmark_fetch.worker i E)
                         (completion_order E 1 101))) as [results|e] eqn:Hc.
  - erewrite bind_Normal; cycle 1.
    { apply memory_loop. rewrite map_map. exact Hc. }
    cbv beta iota zeta.
    rewrite !bind_time, bind_mem.
    rewrite length_map, iter_mem_read.
    cbn [ticks stdout mem_reads invocations tick emit mem_read].
    destruct (traced_memory E _) as [current peak]. cbn [snd].
    rewrite !bind_print. eexists. reflexivity.
  - destruct (memory_loop_raises
                (map (fun i => futures.mk_future (spawn_benchmark_fetch.worker i E))
                     (completion_order E 1 101))
                e 0 []%list E
                (tick (tick (tick (tick
                   (emit "=== Python I/O-Bound Benchmark (100 workers) ===" w))))))
      as [n Hn].
    { rewrite map_map. exact Hc. }
    rewrite (bind_Raised _ _ _ _ _ _ Hn). eexists. reflexivity.
Qed.

Lemma fetch_worker_Ok_inv (E : env) (id : Z) (r : fetch_result) :
  spawn_benchmark_fetch.worker id E = Ok r -> r = fetched E id.
Proof.
  rewrite fetch_worker_run.
  destruct (first_fatal E id (range 1 6)); [discriminate|].
  now intros [= <-].
Qed.

Lemma fetch_worker_Err_inv (E : env) (id : Z) (e : exn) :
  spawn_benchmark_fetch.worker id E = Err e ->
  exists i, 1 <= i <= 5 /\ fatal E id i e.
Proof.
  rewrite fetch_worker_run.
  destruct (first_fatal E id (range 1 6)) as [e'|] eqn:Hf; [|discriminate].
  intros [= <-]. destruct (first_fatal_Some E id _ e' Hf) as [i [Hi He]].
  exists i. apply range_In in Hi. split; [lia|exact He].
Qed.

Lemma collect_map_inv {A B : Type} (f : A -> res B) (g : A -> B)
    (l : list A) (vs : list B) :
  (forall a r, f a = Ok r -> r = g a) ->
  collect (map f l) = Ok vs -> vs = map g l.
Proof.
  intros Hfg. revert vs. induction l as [|a l IH]; intros vs; cbn [map collect].
  - now intros [= <-].
  - destruct (f a) as [b|e] eqn:Ha; [|discriminate].
    destruct (collect (map f l)) as [vs'|e]; [|discriminate].
    intros [= <-]. now rewrite (Hfg a b Ha), (IH vs').
Qed.

(** What the workers collected in completion order amount to: all their
    results, each once; or the fatal exception of one of them. *)
Lemma collected_in_completion_order (E : env) (hi : Z) :
  match collect (map (fun i => spawn_benchmark_fetch.worker i E)
                     (completion_order E 1 hi)) with
  | Ok results =>
      List.length results = Z.to_nat (hi - 1)
      /\ Permutation results (map (fetched E) (range 1 hi))
  | Err e => exists id i, 1 <= id < hi /\ 1 <= i <= 5 /\ fatal E id i e
  end.
Proof.
  destruct (collect _) as [results|e] eqn:Hc.
  - apply (collect_map_inv _ (fetched E)) in Hc;
      [|intros a r; apply fetch_worker_Ok_inv].
    subst results. split.
    + now rewrite length_map, completion_order_length.
    + apply Permutation_map, completion_order_Permutation.
  - apply collect_Err in Hc. destruct Hc as [id [Hid He]].
    apply (Permutation_in _ (completion_order_Permutation E 1 hi)) in Hid.
    apply range_In in Hid.
    destruct (fetch_worker_Err_inv E id e He) as [i [Hi Hf]].
    now exists id, i.
Qed.

(** C3.  Every script that waits for its workers collects exactly one
    result per submitted worker: 1000 in the process-pool script (in
    submission order), 1000 in the full HTTP script and 100 in the two lite
    ones (in completion order, a permutation of the workers' results).  A
    script collects nothing only when a GET raised something that is not an
    [Exception], which ends the run. *)
Theorem collected_results_complete (E : env) (w : world) :
  (exists l w',
     spawn_benchmark.main E w = Normal l w'
     /\ List.length (spawn_benchmark.results l) = 1000%nat
     /\ NoDup (map spawn_benchmark.worker_id (spawn_benchmark.results l)))
  /\ match spawn_benchmark_fetch.main E w with
     | Normal l _ =>
         List.length (spawn_benchmark_fetch.results l) = 1000%nat
         /\ Permutation (spawn_benchmark_fetch.results l)
              (map (fetched E) (range 1 1001))
     | Raised e _ => exists id i, 1 <= id < 1001 /\ 1 <= i <= 5 /\ fatal E id i e
     end
  /\ match spawn_benchmark_fetch_lite.main E w with
     | Normal l _ =>
         List.length (spawn_benchmark_fetch_lite.results l) = 100%nat
         /\ Permutation (spawn_benchmark_fetch_lite.results l)
              (map (fetched E) (range 1 101))
     | Raised e _ => exists id i, 1 <= id < 101 /\ 1 <= i <= 5 /\ fatal E id i e
     end
  /\ match spawn_benchmark_fetch_lite_memory.main E w with
     | Normal l _ =>
         List.length (spawn_benchmark_fetch_lite_memory.retrieved l) = 100%nat
         /\ Permutation (spawn_benchmark_fetch_lite_memory.retrieved l)
              (map (fetched E) (range 1 101))
     | Raised e _ => exists id i, 1 <= id < 101 /\ 1 <= i <= 5 /\ fatal E id i e
     end.
Proof.
  split; [|split; [|split]].
  - eexists. eexists. split; [apply spawn_benchmark_main_run|].
    cbn [spawn_benchmark.results]. split.
    + now rewrite length_map, range_length.
    + rewrite map_map. cbn [spawn_benchmark.worker_id]. rewrite map_id.
      unfold range. apply Finite.Injective_map_NoDup; [|apply seq_NoDup].
      intros a b. lia.
  - rewrite fetch_main_run.
    pose proof (collected_in_completion_order E 1001) as H.
    destruct (collect _) as [results|e]; exact H.
  - rewrite lite_main_run.
    pose proof (collected_in_completion_order E 101) as H.
    destruct (collect _) as [results|e]; exact H.
  - pose proof (memory_main_run E w) as R. cbv zeta in R.
    pose proof (collected_in_completion_order E 101) as H.
    destruct (collect _) as [results|e]; destruct R as [w' ->]; exact H.
Qed.

(** When no request is fatal the HTTP scripts run to their end. *)
Lemma fetch_main_returns (E : env) (w : world) :
  recoverable E ->
  exists l w',
    spawn_benchmark_fetch.main E w = Normal l w'
    /\ spawn_benchmark_fetch.results l
       = map (fetched E) (completion_order E 1 1001).
Proof.
  intros HE. rewrite fetch_main_run, (fetch_workers_Ok E _ HE).
  eexists. eexists. split; reflexivity.
Qed.

(** ** Pool sizes *)

(** The sizes of the pools.  The thread-pool scripts create their executor
    with [max_workers] equal to the number of workers they submit (1000,
    100, 100).  The process-pool scripts create [Pool(processes=None)]: the
    size of the pool is the CPU count of the environment (one if that is
    unknown), whatever the number of tasks, and it accepts all 1000 tasks. *)
Theorem pool_sizes (E : env) (w : world) :
  (exists l w',
     spawn_benchmark.main E w = Normal l w'
     /\ multiprocessing.processes (spawn_benchmark.the_pool l)
        = default_processes E
     /\ len (spawn_benchmark.results l) = 1000)
  /\ (exists l w',
        spawn_benchmark_spawn_only.main E w = Normal l w'
        /\ multiprocessing.processes (spawn_benchmark_spawn_only.the_pool l)
           = default_processes E
        /\ len (spawn_benchmark_spawn_only.async_results l) = 1000)
  /\ match spawn_benchmark_fetch.main E w with
     | Normal l _ =>
         futures.max_workers (spawn_benchmark_fetch.executor l) = 1000
     | Raised e _ => exists id i, 1 <= id < 1001 /\ 1 <= i <= 5 /\ fatal E id i e
     end
  /\ match spawn_benchmark_fetch_lite.main E w with
     | Normal l _ =>
         futures.max_workers (spawn_benchmark_fetch_lite.executor l) = 100
     | Raised e _ => exists id i, 1 <= id < 101 /\ 1 <= i <= 5 /\ fatal E id i e
     end
  /\ match spawn_benchmark_fetch_lite_memory.main E w with
     | Normal l _ =>
         futures.max_workers (spawn_benchmark_fetch_lite_memory.executor l)
         = 100
     | Raised e _ => exists id i, 1 <= id < 101 /\ 1 <= i <= 5 /\ fatal E id i e
     end
  /\ default_processes E
     = match cpu_count E with Some c => Zpos c | None => 1 end.
Proof.
  split; [|split; [|split; [|split; [|split; [|reflexivity]]]]].
  - eexists. eexists. split; [apply spawn_benchmark_main_run|].
    split; [reflexivity|]. apply range_1_1001_len.
  - eexists. eexists. split; [apply spawn_only_main_run|].
    split; [reflexivity|]. apply range_1_1001_len.
  - rewrite fetch_main_run.
    pose proof (collected_in_completion_order E 1001) as H.
    destruct (collect _) as [results|e]; [reflexivity|exact H].
  - rewrite lite_main_run.
    pose proof (collected_in_completion_order E 101) as H.
    destruct (collect _) as [results|e]; [reflexivity|exact H].
  - pose proof (memory_main_run E w) as R. cbv zeta in R.
    pose proof (collected_in_completion_order E 101) as H.
    destruct (collect _) as [results|e]; destruct R as [w' ->];
      [reflexivity|exact H].
Qed.

(** C2.  The process-pool scripts do not size their pool by the number of
    workers, although [spawn_benchmark.py] announces it ("Spawn 1000 worker
    processes") and the thread-pool scripts do: where the CPU count is 8,
    both create a pool of 8 processes, fewer than their 1000 tasks. *)
Lemma process_pool_of_cpu_count :
  (exists l w',
     spawn_benchmark.main steady_env w0 = Normal l w'
     /\ multiprocessing.processes (spawn_benchmark.the_pool l) = 8
     /\ len (spawn_benchmark.results l) = 1000
     /\ ~ 1000 <= multiprocessing.processes (spawn_benchmark.the_pool l))
  /\ (exists l w',
        spawn_benchmark_spawn_only.main steady_env w0 = Normal l w'
        /\ multiprocessing.processes (spawn_benchmark_spawn_only.the_pool l) = 8
        /\ ~ 1000 <= multiprocessing.processes
                       (spawn_benchmark_spawn_only.the_pool l)).
Proof.
  split.
  - eexists. eexists. split; [apply spawn_benchmark_main_run|].
    cbn [spawn_benchmark.the_pool spawn_benchmark.results
         multiprocessing.processes].
    split; [reflexivity|]. split; [apply range_1_1001_len|].
    change (default_processes steady_env) with 8. lia.
  - eexists. eexists. split; [apply spawn_only_main_run|].
    cbn [spawn_benchmark_spawn_only.the_pool multiprocessing.processes].
    split; [reflexivity|].
    change (default_processes steady_env) with 8. lia.
Qed.

(** ** Reported intervals *)









(** * Further properties of the scripts *)

(** ** bench/benchmark.py: the other workloads *)

Lemma len_range (lo hi : Z) : len (range lo hi) = Z.max 0 (hi - lo).
Proof. unfold len. rewrite range_length. lia. Qed.

(** Appending one element at a time rebuilds the list that is iterated. *)
Lemma push_loop (l acc : list Z) :
  fold_left (fun arr i => arr ++ [i])%list l acc = (acc ++ l)%list.
Proof.
  revert acc. induction l as [|i l IH]; intros acc; cbn [fold_left].
  - now rewrite app_nil_r.
  - rewrite IH, <- app_assoc. reflexivity.
Qed.

(** The push loop over [range(1, hi)] builds the list [1, ..., hi-1], in
    order, whatever [hi] is; [test_array_push()] returns 100000. *)
Theorem test_array_push_builds_range :
  (forall hi,
     fold_left (fun arr i => arr ++ [i])%list (range 1 hi) [] = range 1 hi)
  /\ (forall hi,
        len (fold_left (fun arr i => arr ++ [i])%list (range 1 hi) [])
        = Z.max 0 (hi - 1))
  /\ benchmark.test_array_push = 100000.
Proof.
  assert (H : forall hi,
            fold_left (fun arr i => arr ++ [i])%list (range 1 hi) [] = range 1 hi).
  { intros hi. now rewrite push_loop. }
  split; [exact H|]. split.
  - intros hi. now rewrite H, len_range.
  - unfold benchmark.test_array_push. cbv zeta. rewrite H, len_range.
    reflexivity.
Qed.

Lemma string_length_app (s1 s2 : string) :
  String.length (s1 ++ s2) = (String.length s1 + String.length s2)%nat.
Proof.
  induction s1 as [|c s1 IH]; cbn [String.append String.length]; [reflexivity|].
  now rewrite IH.
Qed.

Lemma replicate_snoc (n : nat) (c : ascii) :
  replicate n c ++ String c EmptyString = replicate (S n) c.
Proof.
  induction n as [|n IH]; [reflexivity|].
  cbn [replicate String.append] in *. now rewrite IH.
Qed.

Lemma replicate_length (n : nat) (c : ascii) :
  String.length (replicate n c) = n.
Proof. induction n as [|n IH]; cbn [replicate String.length]; congruence. Qed.

(** The concatenation loop adds one ["x"] per iteration. *)
Lemma concat_loop {X : Type} (l : list X) (n : nat) :
  fold_left (fun str _ => str ++ "x") l (replicate n "x")
  = replicate (n + List.length l) "x".
Proof.
  revert n. induction l as [|i l IH]; intros n; cbn [fold_left List.length].
  - now rewrite Nat.add_0_r.
  - rewrite replicate_snoc, IH. f_equal. lia.
Qed.

(** The string built by the concatenation loop over [range(1, hi)] is
    [hi - 1] times the character [x] (nothing when [hi <= 1]);
    [test_string_concat()] returns 10000. *)
Theorem test_string_concat_length :
  (forall hi,
     fold_left (fun str _ => str ++ "x") (range 1 hi) ""
     = replicate (Z.to_nat (hi - 1)) "x")
  /\ benchmark.test_string_concat = 10000.
Proof.
  assert (H : forall hi,
            fold_left (fun str _ => str ++ "x") (range 1 hi) ""
            = replicate (Z.to_nat (hi - 1)) "x").
  { intros hi. change "" with (replicate 0 "x").
    now rewrite concat_loop, range_length. }
  split; [exact H|].
  unfold benchmark.test_string_concat. cbv zeta.
  rewrite H, replicate_length. lia.
Qed.

(** Any two amounts of fuel that cover [n] give the same value. *)
Lemma fib_fuel_enough (f1 f2 : nat) (n : Z) :
  n <= Z.of_nat f1 -> n <= Z.of_nat f2 ->
  benchmark.fib_fuel f1 n = benchmark.fib_fuel f2 n.
Proof.
  revert f2 n. induction f1 as [|f1 IH]; intros [|f2] n H1 H2;
    cbn [benchmark.fib_fuel].
  - reflexivity.
  - destruct (Z.leb_spec n 1); [reflexivity|lia].
  - destruct (Z.leb_spec n 1); [reflexivity|lia].
  - destruct (Z.leb_spec n 1); [reflexivity|].
    rewrite (IH f2 (n - 1)), (IH f2 (n - 2)) by lia. reflexivity.
Qed.

Lemma fib_base (n : Z) : n <= 1 -> benchmark.fib n = n.
Proof.
  intros H. unfold benchmark.fib.
  destruct (Z.to_nat n); cbn [benchmark.fib_fuel]; [reflexivity|].
  destruct (Z.leb_spec n 1); [reflexivity|lia].
Qed.

Lemma fib_step (n : Z) :
  2 <= n -> benchmark.fib n = benchmark.fib (n - 1) + benchmark.fib (n - 2).
Proof.
  intros H. unfold benchmark.fib.
  destruct (Z.to_nat n) as [|f] eqn:Hf; [lia|].
  cbn [benchmark.fib_fuel]. destruct (Z.leb_spec n 1); [lia|].
  f_equal; apply fib_fuel_enough; lia.
Qed.

Lemma fib_nonneg (n : Z) : 0 <= n -> 0 <= benchmark.fib n.
Proof.
  intros Hn.
  assert (H : forall k : nat, forall m, 0 <= m <= Z.of_nat k ->
                                         0 <= benchmark.fib m).
  { induction k as [|k IH]; intros m Hm.
    - rewrite fib_base; lia.
    - destruct (Z_le_gt_dec m 1).
      + rewrite fib_base; lia.
      + rewrite fib_step by lia.
        pose proof (IH (m - 1) ltac:(lia)). pose proof (IH (m - 2) ltac:(lia)).
        lia. }
  apply (H (Z.to_nat n)). lia.
Qed.

(** [fib] is the Fibonacci recurrence: [fib(n) = n] for [n <= 1] (negative
    arguments included) and [fib(n) = fib(n-1) + fib(n-2)] from 2 on; its
    values on the naturals are not negative; [test_recursion()] returns
    [fib(25) = 75025]. *)
Theorem fib_recurrence :
  (forall n, n <= 1 -> benchmark.fib n = n)
  /\ (forall n, 2 <= n ->
        benchmark.fib n = benchmark.fib (n - 1) + benchmark.fib (n - 2))
  /\ (forall n, 0 <= n -> 0 <= benchmark.fib n)
  /\ benchmark.test_recursion = 75025.
Proof.
  split; [exact fib_base|]. split; [exact fib_step|].
  split; [exact fib_nonneg|]. vm_compute. reflexivity.
Qed.

Lemma fib_recurrence_witness :
  benchmark.fib (-3) = -3
  /\ benchmark.fib 10 = benchmark.fib 9 + benchmark.fib 8
  /\ 0 <= benchmark.fib 10.
Proof.
  split; [|split].
  - apply (proj1 fib_recurrence). lia.
  - apply (proj1 (proj2 fib_recurrence) 10). lia.
  - apply (proj1 (proj2 (proj2 fib_recurrence)) 10). lia.
Defined.

(** The even numbers among [1 .. 2n] are [2, 4, ..., 2n]. *)
Lemma filter_even_range (n : nat) :
  filter (fun x => x mod 2 =? 0) (range 1 (2 * Z.of_nat n + 1))
  = map (fun k => 2 * k) (range 1 (Z.of_nat n + 1)).
Proof.
  induction n as [|n IH]; [reflexivity|].
  rewrite (range_app 1 (2 * Z.of_nat n + 1) (2 * Z.of_nat (S n) + 1)) by lia.
  rewrite (range_app 1 (Z.of_nat n + 1) (Z.of_nat (S n) + 1)) by lia.
  rewrite filter_app, map_app, IH. f_equal.
  rewrite (range_cons (2 * Z.of_nat n + 1)) by lia.
  rewrite (range_cons (2 * Z.of_nat n + 1 + 1)) by lia.
  rewrite (range_nil (2 * Z.of_nat n + 1 + 1 + 1)) by lia.
  rewrite (range_cons (Z.of_nat n + 1)) by lia.
  rewrite (range_nil (Z.of_nat n + 1 + 1)) by lia.
  cbn [filter map].
  replace ((2 * Z.of_nat n + 1) mod 2) with 1
    by (rewrite Z.add_comm, Z.mul_comm, Z_mod_plus_full; reflexivity).
  replace ((2 * Z.of_nat n + 1 + 1) mod 2) with 0
    by (replace (2 * Z.of_nat n + 1 + 1) with (0 + (Z.of_nat n + 1) * 2) by lia;
        rewrite Z_mod_plus_full; reflexivity).
  cbn [Z.eqb]. f_equal. lia.
Qed.

(** The functional chain over [1 .. 2n] keeps the [n] even numbers and
    doubles them: it yields [4, 8, ..., 4n], so [n] values;
    [test_functional()] returns 5000. *)
Theorem test_functional_chain :
  (forall n : nat,
     map (fun x => x * 2)
         (filter (fun x => x mod 2 =? 0) (range 1 (2 * Z.of_nat n + 1)))
     = map (fun k => 4 * k) (range 1 (Z.of_nat n + 1)))
  /\ benchmark.test_functional = 5000.
Proof.
  assert (H : forall n : nat,
     map (fun x => x * 2)
         (filter (fun x => x mod 2 =? 0) (range 1 (2 * Z.of_nat n + 1)))
     = map (fun k => 4 * k) (range 1 (Z.of_nat n + 1))).
  { intros n. rewrite filter_even_range, map_map.
    apply map_ext. intros k. lia. }
  split; [exact H|].
  unfold benchmark.test_functional. cbv zeta.
  replace 10001 with (2 * Z.of_nat 5000 + 1) by reflexivity.
  rewrite H. unfold len. rewrite length_map, range_length. lia.
Qed.

(** ** bench/benchmark.py: the script *)

Lemma string_app_nil_r (s : string) : s ++ "" = s.
Proof.
  induction s as [|c s IH]; cbn [String.append]; [reflexivity|].
  now rewrite IH.
Qed.

(** Timing a workload without effects: two consecutive clock samples. *)
Lemma bind_benchmark_workload {A B : Type} (name : string) (v : A)
    (k : A -> M B) E w :
  bind (benchmark.benchmark name (workload v)) k E w
  = k v E (emit (report name (interval E (ticks w) (S (ticks w))))
             (tick (enter (tick w)))).
Proof. cbn [bind M_Monad]. rewrite benchmark_run. reflexivity. Qed.

(** Running [benchmark.py] prints the banner and then one report per
    workload, in the order of the script; each report times its own workload
    between two consecutive clock samples; the script takes 12 samples and
    calls 6 workloads. *)
Theorem script_output (E : env) (w : world) :
  let t := ticks w in
  exists w',
    benchmark.script E w = Normal tt w'
    /\ stdout w'
       = stdout w ++
         lines [ "=== Python Benchmarks ===";
                 report "Arithmetic (1M ops)" (interval E t (1 + t));
                 report "Array push (100k)" (interval E (2 + t) (3 + t));
                 report "Nested loops (100x100)" (interval E (4 + t) (5 + t));
                 report "String concat (10k)" (interval E (6 + t) (7 + t));
                 report "Recursion fib(25)" (interval E (8 + t) (9 + t));
                 report "Functional chain" (interval E (10 + t) (11 + t)) ]
    /\ ticks w' = (12 + t)%nat
    /\ invocations w' = (6 + invocations w)%nat
    /\ mem_reads w' = mem_reads w.
Proof.
  intros t. subst t. unfold benchmark.script.
  rewrite bind_print, !bind_benchmark_workload.
  eexists. split; [reflexivity|].
  cbn [stdout ticks invocations mem_reads emit tick enter lines].
  split; [|split; [reflexivity|split; reflexivity]].
  rewrite !string_app_assoc, string_app_nil_r. reflexivity.
Qed.

(** ** The HTTP workers: when they raise, what they count, what they record *)

Lemma first_fatal_None_iff (E : env) (id : Z) (l : list Z) :
  first_fatal E id l = None <-> forall i e, In i l -> ~ fatal E id i e.
Proof.
  induction l as [|a l IH]; cbn [first_fatal].
  - split; [intros _ i e []|reflexivity].
  - assert (Hrest : (forall e, ~ fatal E id a e) ->
              (first_fatal E id l = None
               <-> forall i e, In i (a :: l) -> ~ fatal E id i e)).
    { intros Ha. rewrite IH. split.
      - intros H i e [<-|Hi]; [apply Ha|now apply H].
      - intros H i e Hi. apply H. now right. }
    destruct (http E id a) as [s|e1] eqn:Hhttp.
    + apply Hrest. intros e [Hf _]. congruence.
    + destruct (is_Exception e1) eqn:He1.
      * apply Hrest. intros e [Hf He]. congruence.
      * split; [discriminate|]. intros H. exfalso.
        apply (H a e1); [now left|now split].
Qed.

Lemma first_fatal_range_iff (E : env) (id lo hi : Z) (e : exn) :
  first_fatal E id (range lo hi) = Some e
  <-> exists i, lo <= i < hi /\ fatal E id i e
                /\ forall j e', lo <= j < i -> ~ fatal E id j e'.
Proof.
  remember (Z.to_nat (hi - lo)) as n eqn:En.
  revert lo En. induction n as [|n IH]; intros lo En.
  - rewrite range_nil by lia. cbn [first_fatal]. split; [discriminate|].
    intros [i [Hi _]]. lia.
  - rewrite range_cons by lia. cbn [first_fatal].
    specialize (IH (lo + 1) ltac:(lia)).
    assert (Hrest : (forall e', ~ fatal E id lo e') ->
              (first_fatal E id (range (lo + 1) hi) = Some e
               <-> exists i, lo <= i < hi /\ fatal E id i e
                     /\ forall j e', lo <= j < i -> ~ fatal E id j e')).
    { intros Hlo. rewrite IH. split.
      - intros [i [Hi [Hf Hmin]]]. exists i. split; [lia|]. split; [exact Hf|].
        intros j e' Hj. destruct (Z.eq_dec j lo) as [->|Hne]; [apply Hlo|].
        apply Hmin. lia.
      - intros [i [Hi [Hf Hmin]]].
        destruct (Z.eq_dec i lo) as [->|Hne]; [now apply Hlo in Hf|].
        exists i. split; [lia|]. split; [exact Hf|].
        intros j e' Hj. apply Hmin. lia. }
    destruct (http E id lo) as [s|e0] eqn:Hlo.
    + apply Hrest. intros e' [Hf _]. congruence.
    + destruct (is_Exception e0) eqn:He0.
      * apply Hrest. intros e' [Hf He']. congruence.
      * split.
        -- intros [= <-]. exists lo. split; [lia|]. split; [now split|].
           intros j e' Hj. lia.
        -- intros [i [Hi [[Hf He] Hmin]]].
           destruct (Z.eq_dec i lo) as [->|Hne]; [congruence|].
           exfalso. apply (Hmin lo e0); [lia|now split].
Qed.

(** A worker raises exactly the exception of its first fatal attempt (one
    whose GET raises something that is not an [Exception]), and it returns
    exactly when none of its five attempts is fatal. *)
Theorem worker_raises_first_fatal (E : env) (id : Z) :
  (forall e,
     spawn_benchmark_fetch.worker id E = Err e
     <-> exists i, 1 <= i <= 5 /\ fatal E id i e
                   /\ forall j e', 1 <= j < i -> ~ fatal E id j e')
  /\ ((exists r, spawn_benchmark_fetch.worker id E = Ok r)
      <-> forall i e, 1 <= i <= 5 -> ~ fatal E id i e).
Proof.
  split.
  - intros e. rewrite fetch_worker_run.
    pose proof (first_fatal_range_iff E id 1 6 e) as H.
    destruct (first_fatal E id (range 1 6)) as [e'|].
    + split.
      * intros [= ->]. destruct (proj1 H eq_refl) as [i [Hi Hr]].
        exists i. split; [lia|exact Hr].
      * intros [i [Hi Hr]].
        assert (Hs : Some e' = Some e)
          by (apply H; exists i; split; [lia|exact Hr]).
        now injection Hs as ->.
    + split; [discriminate|]. intros [i [Hi Hr]].
      assert (Hs : None = Some e)
        by (apply H; exists i; split; [lia|exact Hr]).
      discriminate.
  - rewrite fetch_worker_run.
    pose proof (first_fatal_None_iff E id (range 1 6)) as H.
    destruct (first_fatal E id (range 1 6)) as [e'|].
    + split; [intros [r [=]]|].
      intros Hnone. destruct H as [_ H]. discriminate H.
      intros i e Hi. apply Hnone. apply range_In in Hi. lia.
    + split; [|intros _; eexists; reflexivity].
      intros _ i e Hi. destruct H as [H _]. apply (H eq_refl).
      apply range_In. lia.
Qed.

(** Every attempt either leaves one entry or is answered with a status
    other than 200. *)
Lemma recorded_plus_rejections (E : env) (id : Z) (l : list Z) :
  len (recorded E id l) + rejections E id l = len l.
Proof.
  unfold rejections, len, recorded.
  induction l as [|i l IH]; [reflexivity|].
  cbn [flat_map filter entry_of]. rewrite length_app.
  destruct (http E id i) as [s|e]; cbn [entry_of].
  - destruct (s =? 200); cbn [negb List.length] in *; lia.
  - cbn [List.length] in *. lia.
Qed.

(** The count a worker returns is 5 minus the number of its attempts that
    were answered with a status other than 200. *)
Theorem requests_exact_count (E : env) (id : Z) (r : fetch_result) :
  spawn_benchmark_fetch.worker id E = Ok r ->
  requests r = 5 - rejections E id (range 1 6)
  /\ 0 <= rejections E id (range 1 6) <= 5.
Proof.
  intros Hr. apply fetch_worker_Ok_inv in Hr. subst r.
  unfold fetched. cbn [requests].
  pose proof (recorded_plus_rejections E id (range 1 6)) as H.
  rewrite len_range in H.
  assert (0 <= len (recorded E id (range 1 6))) by (unfold len; lia).
  assert (0 <= rejections E id (range 1 6)) by (unfold rejections, len; lia).
  lia.
Qed.

Lemma requests_exact_count_witness :
  spawn_benchmark_fetch.worker 7 flaky_env = Ok (mk_fetch 7 4)
  /\ rejections flaky_env 7 (range 1 6) = 1
  /\ requests (mk_fetch 7 4) = 5 - rejections flaky_env 7 (range 1 6).
Proof.
  split; [reflexivity|]. split; [reflexivity|].
  exact (proj1 (requests_exact_count flaky_env 7 (mk_fetch 7 4) eq_refl)).
Defined.

Lemma recorded_sorted (E : env) (id lo hi : Z) :
  StronglySorted (fun x y => attempt_of x < attempt_of y)
    (recorded E id (range lo hi)).
Proof.
  remember (Z.to_nat (hi - lo)) as n eqn:En.
  revert lo En. induction n as [|n IH]; intros lo En.
  - rewrite range_nil by lia. constructor.
  - rewrite range_cons by lia. unfold recorded. cbn [flat_map].
    fold (recorded E id (range (lo + 1) hi)).
    specialize (IH (lo + 1) ltac:(lia)).
    assert (Hlater : forall x y, In x (entry_of lo (http E id lo)) ->
              In y (recorded E id (range (lo + 1) hi)) ->
              attempt_of x < attempt_of y).
    { intros x y Hx Hy. apply entry_of_attempt in Hx.
      apply recorded_In in Hy. destruct Hy as [j [Hj Hy]].
      apply entry_of_attempt in Hy. apply range_In in Hj. lia. }
    destruct (entry_of lo (http E id lo)) as [|x [|x' rest]] eqn:Hent.
    + exact IH.
    + cbn [app]. constructor; [exact IH|].
      apply Forall_forall. intros y Hy. apply Hlater; [now left|exact Hy].
    + exfalso. pose proof (proj1 (entry_of_length E id lo)) as Hlen.
      rewrite Hent in Hlen. cbn [List.length] in Hlen. lia.
Qed.

(** The list a worker's loop ends with holds nothing but what happened: a
    success entry stands for an attempt answered with 200, an error entry
    for an attempt that raised an [Exception] and carries its text; the
    entries are in the order of the attempts, at most one per attempt. *)
Theorem recorded_entries_sound (E : env) (id : Z) (results : list entry) :
  spawn_benchmark_fetch.attempts id E = Ok results ->
  (forall i s, In (Success i s) results ->
     1 <= i <= 5 /\ s = 200 /\ http E id i = Responded 200)
  /\ (forall i m, In (Error i m) results ->
        1 <= i <= 5
        /\ exists e, http E id i = Failed e /\ is_Exception e = true
                     /\ m = exn_str e)
  /\ StronglySorted (fun x y => attempt_of x < attempt_of y) results.
Proof.
  rewrite fetch_attempts_run.
  destruct (first_fatal E id (range 1 6)) as [e|] eqn:Hf; [discriminate|].
  intros Heq.
  assert (results = recorded E id (range 1 6)) as -> by congruence. clear Heq.
  pose proof (proj1 (first_fatal_None_iff E id _) Hf) as Hnone.
  split; [|split; [|apply recorded_sorted]].
  - intros i s Hin. apply recorded_In in Hin. destruct Hin as [j [Hj Hin]].
    pose proof (entry_of_attempt _ _ _ Hin) as Hat. cbn [attempt_of] in Hat.
    subst j. apply range_In in Hj. split; [lia|].
    destruct (http E id i) as [st|e]; cbn [entry_of] in Hin.
    + destruct (Z.eqb_spec st 200) as [Hst|Hst]; [|destruct Hin].
      destruct Hin as [Hin|[]]. injection Hin as Hs. split; congruence.
    + destruct Hin as [[=]|[]].
  - intros i m Hin. apply recorded_In in Hin. destruct Hin as [j [Hj Hin]].
    pose proof (entry_of_attempt _ _ _ Hin) as Hat. cbn [attempt_of] in Hat.
    subst j. pose proof Hj as Hj'. apply range_In in Hj'. split; [lia|].
    destruct (http E id i) as [st|e] eqn:Hi; cbn [entry_of] in Hin.
    + destruct (st =? 200); [|destruct Hin]. destruct Hin as [[=]|[]].
    + destruct Hin as [[= <-]|[]]. exists e. split; [reflexivity|].
      split; [|reflexivity].
      destruct (is_Exception e) eqn:He; [reflexivity|].
      exfalso. apply (Hnone i e Hj). now split.
Qed.

Lemma recorded_entries_sound_witness :
  spawn_benchmark_fetch.attempts 7 flaky_env
  = Ok [Success 1 200; Success 2 200;
        Error 4 "Read timed out. (read timeout=15)"; Success 5 200]
  /\ StronglySorted (fun x y => attempt_of x < attempt_of y)
       [Success 1 200; Success 2 200;
        Error 4 "Read timed out. (read timeout=15)"; Success 5 200].
Proof.
  split; [reflexivity|].
  exact (proj2 (proj2 (recorded_entries_sound flaky_env 7 _ eq_refl))).
Defined.

(** ** The thread-pool scripts: when they end, what they collect and print *)

Lemma collect_Ok_inv {A B : Type} (f : A -> res B) (l : list A) (vs : list B) :
  collect (map f l) = Ok vs -> forall a, In a l -> exists b, f a = Ok b.
Proof.
  revert vs. induction l as [|x l IH]; intros vs; cbn [map collect].
  - intros _ a [].
  - destruct (f x) as [b|e] eqn:Hx; [|discriminate].
    destruct (collect (map f l)) as [vs'|e]; [|discriminate].
    intros _ a [<-|Ha]; [now exists b|]. now apply (IH vs').
Qed.

(** All the workers submitted for [range 1 hi] return exactly when none of
    their attempts is fatal. *)
Lemma workers_return_iff (E : env) (hi : Z) :
  collect (map (fun i => spawn_benchmark_fetch.worker i E)
               (completion_order E 1 hi))
  = Ok (map (fetched E) (completion_order E 1 hi))
  <-> forall id i e, 1 <= id < hi -> 1 <= i <= 5 -> ~ fatal E id i e.
Proof.
  split.
  - intros Hc id i e Hid Hi.
    assert (Hin : In id (completion_order E 1 hi)).
    { apply (Permutation_in _ (Permutation_sym
                                 (completion_order_Permutation E 1 hi))).
      apply range_In. lia. }
    destruct (collect_Ok_inv _ _ _ Hc id Hin) as [r Hr].
    rewrite fetch_worker_run in Hr.
    destruct (first_fatal E id (range 1 6)) eqn:Hf; [discriminate|].
    apply (proj1 (first_fatal_None_iff E id _) Hf). apply range_In. lia.
  - intros Hnone. apply collect_Ok. intros id Hin.
    apply (Permutation_in _ (completion_order_Permutation E 1 hi)) in Hin.
    apply range_In in Hin. rewrite fetch_worker_run.
    rewrite (proj2 (first_fatal_None_iff E id (range 1 6))); [reflexivity|].
    intros i e Hi. apply range_In in Hi. apply Hnone; lia.
Qed.

(** The full HTTP script runs to its end exactly when no GET of its 1000
    workers is fatal.  Otherwise it raises the fatal exception of a worker
    after its banner and four clock samples: it prints no timing at all. *)
Theorem fetch_main_ends_iff_no_fatal (E : env) (w : world) :
  ((exists l w', spawn_benchmark_fetch.main E w = Normal l w')
   <-> forall id i e, 1 <= id <= 1000 -> 1 <= i <= 5 -> ~ fatal E id i e)
  /\ match spawn_benchmark_fetch.main E w with
     | Normal l w' =>
         spawn_benchmark_fetch.results l
         = map (fetched E) (completion_order E 1 1001)
         /\ ticks w' = (6 + ticks w)%nat
     | Raised e w' =>
         (exists id i, 1 <= id <= 1000 /\ 1 <= i <= 5 /\ fatal E id i e)
         /\ stdout w'
            = stdout w ++
              lines [ "=== Python I/O-Bound Benchmark ===";
                      "Each worker makes 5 HTTP requests to httpbin.org/delay/1";
                      "" ]
         /\ ticks w' = (4 + ticks w)%nat
     end.
Proof.
  pose proof (fetch_main_run E w) as R. cbv zeta in R.
  pose proof (workers_return_iff E 1001) as Hiff.
  pose proof (collected_in_completion_order E 1001) as Hcol.
  destruct (collect (map (fun i => spawn_benchmark_fetch.worker i E)
                         (completion_order E 1 1001))) as [results|e] eqn:Hc.
  - assert (Hres : results = map (fetched E) (completion_order E 1 1001)).
    { apply (collect_map_inv _ (fetched E) _ _
               (fun a r => fetch_worker_Ok_inv E a r) Hc). }
    rewrite R. split.
    + split; [|intros _; eexists; eexists; reflexivity].
      intros _ id i e Hid Hi. apply (proj1 Hiff); [congruence|lia|lia].
    + cbn [spawn_benchmark_fetch.results]. split; [exact Hres|reflexivity].
  - rewrite R. split.
    + split; [intros [l [w' [=]]]|].
      intros Hnone. exfalso.
      assert (Hok : Err e = Ok (map (fetched E) (completion_order E 1 1001)))
        by (apply (proj2 Hiff); intros id i e' Hid Hi; apply Hnone; lia).
      discriminate.
    + destruct Hcol as [id [i [Hid [Hi Hf]]]].
      split; [exists id, i; split; [lia|]; now split|].
      cbn [stdout ticks emit tick lines]. split; [|reflexivity].
      rewrite !string_app_assoc. reflexivity.
Qed.

(** A run in which a single GET is interrupted from the keyboard: the
    script ends with that exception. *)
Lemma fetch_main_interrupted :
  exists w',
    spawn_benchmark_fetch.main fatal_env w0 = Raised KeyboardInterrupt w'
    /\ stdout w'
       = lines [ "=== Python I/O-Bound Benchmark ===";
                 "Each worker makes 5 HTTP requests to httpbin.org/delay/1";
                 "" ].
Proof.
  pose proof (fetch_main_ends_iff_no_fatal fatal_env w0) as [Hiff Hm].
  destruct (spawn_benchmark_fetch.main fatal_env w0) as [l w'|e w'].
  - exfalso. destruct Hiff as [Hiff _].
    apply (Hiff (ex_intro _ l (ex_intro _ w' eq_refl)) 7 2 KeyboardInterrupt);
      [lia|lia|]. split; reflexivity.
  - destruct Hm as [[id [i [_ [_ [Hf _]]]]] [Hout _]].
    cbn [http fatal_env] in Hf.
    destruct ((id =? 7) && (i =? 2)); [|discriminate].
    injection Hf as <-. exists w'. split; [reflexivity|exact Hout].
Defined.

Lemma range_NoDup (lo hi : Z) : NoDup (range lo hi).
Proof.
  unfold range. apply Finite.Injective_map_NoDup; [|apply seq_NoDup].
  intros a b. lia.
Qed.

Lemma fetched_requests (E : env) (id : Z) :
  worker_id (fetched E id) = id
  /\ requests (fetched E id) = 5 - rejections E id (range 1 6)
  /\ 0 <= requests (fetched E id) <= 5.
Proof.
  unfold fetched. cbn [worker_id requests].
  pose proof (recorded_plus_rejections E id (range 1 6)) as H.
  rewrite len_range in H.
  assert (0 <= len (recorded E id (range 1 6))) by (unfold len; lia).
  assert (0 <= rejections E id (range 1 6)) by (unfold rejections, len; lia).
  split; [reflexivity|]. lia.
Qed.

Lemma fetched_in_completion_order (E : env) (hi : Z) :
  Permutation (map worker_id (map (fetched E) (completion_order E 1 hi)))
    (range 1 hi)
  /\ NoDup (map worker_id (map (fetched E) (completion_order E 1 hi)))
  /\ Forall (fun r => 0 <= requests r <= 5
                      /\ requests r
                         = 5 - rejections E (worker_id r) (range 1 6))
       (map (fetched E) (completion_order E 1 hi)).
Proof.
  assert (Hp : Permutation
                 (map worker_id (map (fetched E) (completion_order E 1 hi)))
                 (range 1 hi)).
  { rewrite map_map. cbn [worker_id fetched]. rewrite map_id.
    apply completion_order_Permutation. }
  split; [exact Hp|]. split.
  - apply (Permutation_NoDup (Permutation_sym Hp)), range_NoDup.
  - apply Forall_forall. intros r Hr. apply in_map_iff in Hr.
    destruct Hr as [id [<- _]].
    destruct (fetched_requests E id) as [-> [H1 H2]]. now split.
Qed.

(** Whatever the order in which the workers complete, the results the HTTP
    scripts collect carry every worker id from 1 to N exactly once, and
    each count is 5 minus that worker's attempts answered with a status
    other than 200. *)
Theorem fetch_results_one_per_worker (E : env) (w : world) :
  match spawn_benchmark_fetch.main E w with
  | Normal l _ =>
      Permutation (map worker_id (spawn_benchmark_fetch.results l))
        (range 1 1001)
      /\ NoDup (map worker_id (spawn_benchmark_fetch.results l))
      /\ Forall (fun r => 0 <= requests r <= 5
                          /\ requests r
                             = 5 - rejections E (worker_id r) (range 1 6))
           (spawn_benchmark_fetch.results l)
  | Raised _ _ => True
  end
  /\ match spawn_benchmark_fetch_lite.main E w with
     | Normal l _ =>
         Permutation (map worker_id (spawn_benchmark_fetch_lite.results l))
           (range 1 101)
         /\ NoDup (map worker_id (spawn_benchmark_fetch_lite.results l))
         /\ Forall (fun r => 0 <= requests r <= 5
                             /\ requests r
                                = 5 - rejections E (worker_id r) (range 1 6))
              (spawn_benchmark_fetch_lite.results l)
     | Raised _ _ => True
     end.
Proof.
  split.
  - rewrite fetch_main_run.
    destruct (collect _) as [results|e] eqn:Hc; [|exact I].
    apply (collect_map_inv _ (fetched E) _ _
             (fun a r => fetch_worker_Ok_inv E a r)) in Hc. subst results.
    cbn [spawn_benchmark_fetch.results]. apply fetched_in_completion_order.
  - rewrite lite_main_run.
    destruct (collect _) as [results|e] eqn:Hc; [|exact I].
    apply (collect_map_inv _ (fetched E) _ _
             (fun a r => fetch_worker_Ok_inv E a r)) in Hc. subst results.
    cbn [spawn_benchmark_fetch_lite.results]. apply fetched_in_completion_order.
Qed.

(** What the HTTP scripts print when they run to their end: the banner,
    then the spawn, wait and total times with one decimal, each between the
    clock samples of its own interval; the full script adds the wait time
    divided by 1000 with three decimals.  Both take six clock samples. *)
Theorem fetch_main_output (E : env) (w : world) :
  let t := ticks w in
  match spawn_benchmark_fetch.main E w with
  | Normal l w' =>
      stdout w'
      = stdout w ++
        lines [ "=== Python I/O-Bound Benchmark ===";
                "Each worker makes 5 HTTP requests to httpbin.org/delay/1";
                "";
                "Spawn 1000 workers: "
                  ++ format_float 1 (interval E (1 + t) (2 + t)) ++ "ms";
                "Wait for completion: "
                  ++ format_float 1 (interval E (3 + t) (4 + t)) ++ "ms";
                "Total time: " ++ format_float 1 (interval E t (5 + t)) ++ "ms";
                "Average per worker: "
                  ++ format_float 3 (interval E (3 + t) (4 + t) / 1000)%float ++ "ms" ]
      /\ ticks w' = (6 + t)%nat
  | Raised _ _ => True
  end
  /\ match spawn_benchmark_fetch_lite.main E w with
     | Normal l w' =>
         stdout w'
         = stdout w ++
           lines [ "=== Python I/O-Bound Benchmark (100 workers) ===";
                   "Spawn 100 workers: "
                     ++ format_float 1 (interval E (1 + t) (2 + t)) ++ "ms";
                   "Wait for completion: "
                     ++ format_float 1 (interval E (3 + t) (4 + t)) ++ "ms";
                   "Total time: " ++ format_float 1 (interval E t (5 + t)) ++ "ms" ]
         /\ ticks w' = (6 + t)%nat
     | Raised _ _ => True
     end.
Proof.
  intros t. subst t. split.
  - rewrite fetch_main_run.
    destruct (collect _) as [results|e]; [|exact I].
    cbn [stdout ticks emit tick lines]. split; [|reflexivity].
    rewrite !string_app_assoc, string_app_nil_r. reflexivity.
  - rewrite lite_main_run.
    destruct (collect _) as [results|e]; [|exact I].
    cbn [stdout ticks emit tick lines]. split; [|reflexivity].
    rewrite !string_app_assoc, string_app_nil_r. reflexivity.
Qed.

(** ** The process-pool scripts: what they print and hand back *)

(** [spawn_benchmark.py] always runs to its end: it prints its banner, the
    time between its two clock samples and the number of results, which is
    the number of workers submitted. *)
Theorem spawn_benchmark_output (E : env) (w : world) :
  exists l w',
    spawn_benchmark.main E w = Normal l w'
    /\ stdout w'
       = stdout w ++
         lines [ "=== Python Spawn Benchmark ===";
                 "Spawn and complete 1000 workers: "
                   ++ format_float 1 (interval E (ticks w) (1 + ticks w)) ++ "ms";
                 "Completed " ++ str_of_int (len (spawn_benchmark.results l))
                   ++ " workers" ]
    /\ len (spawn_benchmark.results l) = len (range 1 1001)
    /\ ticks w' = (2 + ticks w)%nat.
Proof.
  eexists. eexists. split; [apply spawn_benchmark_main_run|].
  cbn [spawn_benchmark.results]. rewrite range_1_1001_len.
  cbn [stdout ticks emit tick lines]. split; [|split; reflexivity].
  rewrite !string_app_assoc, string_app_nil_r. reflexivity.
Qed.


(** ** The memory-tracking script *)

Lemma peaks_lower (E : env) (m n : nat) (p : Z) : p <= peaks E m n p.
Proof.
  revert m p. induction n as [|n IH]; intros m p; cbn [peaks]; [lia|].
  specialize (IH (S m) (Z.max p (snd (traced_memory E m)))). lia.
Qed.

Lemma peaks_reading (E : env) (m n k : nat) (p : Z) :
  (k < n)%nat -> snd (traced_memory E (m + k)) <= peaks E m n p.
Proof.
  revert m k p. induction n as [|n IH]; intros m k p Hk; [lia|].
  cbn [peaks]. destruct k as [|k].
  - rewrite Nat.add_0_r.
    pose proof (peaks_lower E (S m) n (Z.max p (snd (traced_memory E m)))). lia.
  - replace (m + S k)%nat with (S m + k)%nat by lia. apply IH. lia.
Qed.

Lemma peaks_attained (E : env) (m n : nat) (p : Z) :
  peaks E m n p = p
  \/ exists k, (k < n)%nat /\ peaks E m n p = snd (traced_memory E (m + k)).
Proof.
  revert m p. induction n as [|n IH]; intros m p; cbn [peaks]; [now left|].
  destruct (IH (S m) (Z.max p (snd (traced_memory E m)))) as [H|[k [Hk H]]].
  - rewrite H. destruct (Z.max_spec p (snd (traced_memory E m))) as [[_ ->]|[_ ->]].
    + right. exists 0%nat. split; [lia|]. now rewrite Nat.add_0_r.
    + now left.
  - right. exists (S k). split; [lia|].
    rewrite H. f_equal. f_equal. lia.
Qed.

(** The run of the memory-tracking script to its end, with the world it
    leaves. *)
Lemma memory_main_final (E : env) (w : world) (results : list fetch_result) :
  collect (map (fun i => spawn_benchmark_fetch.worker i E)
               (completion_order E 1 101)) = Ok results ->
  let t := ticks w in
  let peak := Z.max (peaks E (mem_reads w) 100 0)
                    (snd (traced_memory E (100 + mem_reads w))) in
  exists w',
    spawn_benchmark_fetch_lite_memory.main E w
    = Normal
        (spawn_benchmark_fetch_lite_memory.mk_locals
           (futures.mk_executor 100) results peak
           (interval E (1 + t) (2 + t)) (interval E (3 + t) (4 + t))
           (interval E t (5 + t)))
        w'
    /\ stdout w'
       = stdout w ++
         lines [ "=== Python I/O-Bound Benchmark (100 workers) ===";
                 "Spawn 100 workers: "
                   ++ format_float 1 (interval E (1 + t) (2 + t)) ++ "ms";
                 "Wait for completion: "
                   ++ format_float 1 (interval E (3 + t) (4 + t)) ++ "ms";
                 "Total time: " ++ format_float 1 (interval E t (5 + t)) ++ "ms";
                 "Peak memory: "
                   ++ format_float 1 (float_of_Z peak / 1024 / 1024)%float ++ " MB" ]
    /\ ticks w' = (6 + t)%nat
    /\ mem_reads w' = (101 + mem_reads w)%nat.
Proof.
  intros Hc t peak. subst t peak.
  unfold spawn_benchmark_fetch_lite_memory.main.
  rewrite memory_worker_eq.
  rewrite bind_print, bind_time. cbv zeta.
  rewrite (bind_Normal _ _ _ _ _ _ (ThreadPoolExecutor_pos 100 _ _ eq_refl)).
  rewrite !bind_time.
  rewrite (bind_Normal _ _ _ _ _ _ (submit_all _ _ _ _ _)).
  rewrite !bind_time.
  rewrite (bind_Normal _ _ _ _ _ _ (as_completed_submitted _ _ _ _ _)).
  erewrite bind_Normal; cycle 1.
  { apply memory_loop. rewrite map_map. exact Hc. }
  cbv beta iota zeta.
  rewrite !bind_time, bind_mem.
  rewrite length_map, iter_mem_read, completion_order_length.
  change (Z.to_nat (101 - 1)) with 100%nat.
  cbn [ticks stdout mem_reads invocations tick emit mem_read].
  destruct (traced_memory E (100 + mem_reads w)) as [current peak]. cbn [snd].
  rewrite !bind_print. eexists. split; [reflexivity|].
  cbn [stdout ticks mem_reads emit tick mem_read lines].
  split; [|split; reflexivity].
  rewrite !string_app_assoc, string_app_nil_r. reflexivity.
Qed.

(** The memory-tracking script reads the traced memory once per completed
    worker and once more after the wait, 101 readings in all, and reports
    the running maximum of their peaks: a value that is not negative, not
    below any of the peaks read, and equal to 0 or to one of them.  It
    prints that value in MB with one decimal after the three times. *)
Theorem memory_peak_is_running_maximum (E : env) (w : world) :
  let t := ticks w in
  let m := mem_reads w in
  match spawn_benchmark_fetch_lite_memory.main E w with
  | Normal l w' =>
      let peak := spawn_benchmark_fetch_lite_memory.peak_memory l in
      0 <= peak
      /\ (forall k, (k <= 100)%nat -> snd (traced_memory E (m + k)) <= peak)
      /\ (peak = 0
          \/ exists k, (k <= 100)%nat /\ peak = snd (traced_memory E (m + k)))
      /\ mem_reads w' = (101 + m)%nat
      /\ stdout w'
         = stdout w ++
           lines [ "=== Python I/O-Bound Benchmark (100 workers) ===";
                   "Spawn 100 workers: "
                     ++ format_float 1 (interval E (1 + t) (2 + t)) ++ "ms";
                   "Wait for completion: "
                     ++ format_float 1 (interval E (3 + t) (4 + t)) ++ "ms";
                   "Total time: " ++ format_float 1 (interval E t (5 + t)) ++ "ms";
                   "Peak memory: "
                     ++ format_float 1 (float_of_Z peak / 1024 / 1024)%float ++ " MB" ]
  | Raised _ _ => True
  end.
Proof.
  intros t m. subst t m.
  destruct (collect (map (fun i => spawn_benchmark_fetch.worker i E)
                         (completion_order E 1 101))) as [results|e] eqn:Hc.
  - destruct (memory_main_final E w results Hc) as [w' [-> [Hout [_ Hmem]]]].
    cbv zeta in *. cbn [spawn_benchmark_fetch_lite_memory.peak_memory].
    pose proof (peaks_lower E (mem_reads w) 100 0) as Hlow.
    replace (100 + mem_reads w)%nat with (mem_reads w + 100)%nat in * by lia.
    split; [lia|]. split; [|split; [|split; [exact Hmem|exact Hout]]].
    + intros k Hk. destruct (Nat.eq_dec k 100) as [->|Hne]; [lia|].
      pose proof (peaks_reading E (mem_reads w) 100 k 0 ltac:(lia)). lia.
    + destruct (Z.max_spec (peaks E (mem_reads w) 100 0)
                  (snd (traced_memory E (mem_reads w + 100)))) as [[_ ->]|[_ ->]].
      * right. exists 100%nat. split; [lia|reflexivity].
      * destruct (peaks_attained E (mem_reads w) 100 0) as [->|[k [Hk ->]]].
        -- now left.
        -- right. exists k. split; [lia|reflexivity].
  - pose proof (memory_main_run E w) as R. cbv zeta in R. rewrite Hc in R.
    destruct R as [w' ->]. exact I.
Qed.

(** ** The printed numbers *)

(** What [:.1f] prints for [x]: a minus sign when [x] is negative, then the
    tenths [m] nearest to [|x|] written as the integer [m / 10], a point and
    the single digit [m mod 10]; the printed number is within 0.05 of [x]. *)
Theorem format_one_decimal (x : Q) :
  let m := round_half_even (Qabs x * inject_Z 10)%Q in
  format_f 1 x
  = (if Qlt_le_dec x 0 then "-" else "")
    ++ str_of_int (m / 10) ++ "."
    ++ String (ascii_of_nat (48 + Z.to_nat (m mod 10))) EmptyString
  /\ 0 <= m
  /\ (Qabs (inject_Z m / inject_Z 10 - Qabs x) <= 1 # 20)%Q.
Proof.
  intros m. subst m.
  set (m := round_half_even (Qabs x * inject_Z 10)%Q).
  assert (Hm : 0 <= m).
  { apply round_half_even_nonneg.
    apply Qmult_le_0_compat; [apply Qabs_nonneg|discriminate]. }
  split; [|split; [exact Hm|]].
  - unfold format_f. change (10 ^ Z.of_nat 1) with 10. cbv zeta. fold m.
    pose proof (Z.mod_pos_bound m 10 ltac:(lia)) as Hb.
    rewrite (str_of_int_digit (m mod 10) Hb). reflexivity.
  - pose proof (round_half_even_error (Qabs x * inject_Z 10)%Q) as He.
    fold m in He.
    apply Qabs_Qle_condition in He. apply Qabs_Qle_condition.
    destruct He as [He1 He2].
    set (a := Qabs x) in *. set (z := inject_Z m) in *.
    unfold Qdiv. change (/ inject_Z 10)%Q with (1 # 10)%Q.
    change (inject_Z 10) with (10 # 1)%Q in *.
    split; lra.
Qed.

(** ** What the scheduler cannot change *)

Lemma fetched_ext (E E' : env) (id : Z) :
  http E = http E' -> fetched E id = fetched E' id.
Proof. intros H. unfold fetched, recorded. now rewrite H. Qed.

Lemma fatal_ext (E E' : env) (id i : Z) (e : exn) :
  http E = http E' -> fatal E id i e -> fatal E' id i e.
Proof. intros H. unfold fatal. now rewrite H. Qed.

(** Two runs of the full HTTP script that get the same answers from the
    network, in whatever worlds and with whatever clocks and orders of
    completion, either both end with an exception or both run to their end
    and collect the same results up to their order. *)
Theorem results_independent_of_completion_order (E E' : env) (w w' : world) :
  http E = http E' ->
  match spawn_benchmark_fetch.main E w, spawn_benchmark_fetch.main E' w' with
  | Normal l _, Normal l' _ =>
      Permutation (spawn_benchmark_fetch.results l)
                  (spawn_benchmark_fetch.results l')
  | Raised _ _, Raised _ _ => True
  | _, _ => False
  end.
Proof.
  intros Hhttp. rewrite !fetch_main_run.
  pose proof (workers_return_iff E 1001) as HE.
  pose proof (workers_return_iff E' 1001) as HE'.
  destruct (collect (map (fun i => spawn_benchmark_fetch.worker i E)
                         (completion_order E 1 1001))) as [rs|e] eqn:Hc;
  destruct (collect (map (fun i => spawn_benchmark_fetch.worker i E')
                         (completion_order E' 1 1001))) as [rs'|e'] eqn:Hc'.
  - apply (collect_map_inv _ (fetched E) _ _
             (fun a r => fetch_worker_Ok_inv E a r)) in Hc.
    apply (collect_map_inv _ (fetched E') _ _
             (fun a r => fetch_worker_Ok_inv E' a r)) in Hc'.
    subst rs rs'. cbn [spawn_benchmark_fetch.results].
    rewrite (map_ext (fetched E) (fetched E')
               (fun id => fetched_ext E E' id Hhttp)).
    apply Permutation_map.
    rewrite (completion_order_Permutation E 1 1001).
    symmetry. apply completion_order_Permutation.
  - apply (collect_map_inv _ (fetched E) _ _
             (fun a r => fetch_worker_Ok_inv E a r)) in Hc as Hrs.
    subst rs.
    assert (Hbad : Err e' = Ok (map (fetched E') (completion_order E' 1 1001))).
    { apply (proj2 HE'). intros id i e0 Hid Hi Hf.
      apply (proj1 HE eq_refl id i e0 Hid Hi).
      apply (fatal_ext E' E); [now symmetry|exact Hf]. }
    discriminate.
  - apply (collect_map_inv _ (fetched E') _ _
             (fun a r => fetch_worker_Ok_inv E' a r)) in Hc' as Hrs.
    subst rs'.
    assert (Hbad : Err e = Ok (map (fetched E) (completion_order E 1 1001))).
    { apply (proj2 HE). intros id i e0 Hid Hi Hf.
      apply (proj1 HE' eq_refl id i e0 Hid Hi).
      apply (fatal_ext E E'); [exact Hhttp|exact Hf]. }
    discriminate.
  - exact I.
Qed.

Lemma results_independent_of_completion_order_witness :
  let E' := mk_env (clock backward_env) (http steady_env) None
              (fun _ => 0%nat) (traced_memory steady_env) in
  http steady_env = http E'
  /\ match spawn_benchmark_fetch.main steady_env w0,
           spawn_benchmark_fetch.main E' (mk_world 3 "started" 0 0) with
     | Normal l _, Normal l' _ =>
         Permutation (spawn_benchmark_fetch.results l)
                     (spawn_benchmark_fetch.results l')
     | Raised _ _, Raised _ _ => True
     | _, _ => False
     end.
Proof.
  intros E'. split; [reflexivity|].
  exact (results_independent_of_completion_order steady_env E' w0
           (mk_world 3 "started" 0 0) eq_refl).
Defined.

(** ** The CPU-bound workers *)

(** Each CPU-bound worker, in both process-pool scripts, returns its own id
    and the sum the arithmetic benchmark computes, whatever the environment:
    the workers never raise and do the same work. *)
Theorem cpu_workers_do_arithmetic (k : Z) (E : env) :
  spawn_benchmark.worker k E
  = Ok (spawn_benchmark.mk_result k benchmark.test_arithmetic)
  /\ spawn_benchmark_spawn_only.worker k E
     = Ok (spawn_benchmark_spawn_only.mk_result k benchmark.test_arithmetic)
  /\ benchmark.test_arithmetic = 4500000.
Proof.
  assert (H : benchmark.test_arithmetic = 4500000).
  { unfold benchmark.test_arithmetic.
    rewrite count_loop_eq, count_loop_1M. apply Z.add_0_l. }
  rewrite H, cpu_worker_run, spawn_only_worker_run.
  split; [reflexivity|]. split; reflexivity.
Qed.
